(** * Twilio / ElevenLabs audio bridge: a shallow embedding

    This development embeds the two Python modules of the example
    [examples/conversational-ai/twilio/python-sdk]:

    - [twilio_audio_interface.py], the class [TwilioAudioInterface]
      (the audio bridge), and
    - [main.py], the tool endpoint [handle_tool_call] and the read loop of
      [handle_media_stream] (the call session orchestrator),

    and proves properties of them.

    Python values are modelled as follows.  A decoded JSON document is a
    value of [json]; Python's [None] is [JNull].  A [str] is a Rocq [string]
    whose characters are code points below 256.  [bytes] is [list byte].
    A dict is an association list in insertion order.  Exceptions are the
    subclasses of [Exception]: a class and the text of [str(e)].  Effects
    (socket writes, reads of the socket state, calls of the installed
    callback, [print]) are recorded as a list of events; the bridge object
    and the environment's call counters are threaded as explicit state. *)

From Stdlib Require Import List String Ascii Bool Arith ZArith NArith Lia.
From Stdlib Require Import Strings.Byte DecimalString.
From Stdlib Require Floats.SpecFloat.
Import ListNotations.

Local Open Scope string_scope.
Local Open Scope list_scope.

Set Implicit Arguments.
Set Warnings "-register-all".

(** ** Python values *)

Module Py.

(** The values [json.loads] returns. *)
Inductive json : Type :=
| JNull
| JBool (b : bool)
| JInt (n : Z)
| JFloat (x : SpecFloat.spec_float)
| JStr (s : string)
| JArr (xs : list json)
| JObj (kvs : list (string * json)).

(** [bool(v)]: the truth value tested by [if v:]. *)
Definition truthy (v : json) : bool :=
  match v with
  | JNull => false
  | JBool b => b
  | JInt n => negb (Z.eqb n 0)
  | JFloat x => match x with SpecFloat.S754_zero _ => false | _ => true end
  | JStr s => negb (String.eqb s "")
  | JArr xs => match xs with [] => false | _ => true end
  | JObj kvs => match kvs with [] => false | _ => true end
  end.

(** [v == s] for a string literal [s]. *)
Definition eq_str (v : json) (s : string) : bool :=
  match v with
  | JStr t => String.eqb t s
  | _ => false
  end.

(** [type(v).__name__]. *)
Definition type_name (v : json) : string :=
  match v with
  | JNull => "NoneType"
  | JBool _ => "bool"
  | JInt _ => "int"
  | JFloat _ => "float"
  | JStr _ => "str"
  | JArr _ => "list"
  | JObj _ => "dict"
  end.

(** Exception classes the two modules tell apart, those the lookups and
    the decoding raise, and [OtherException] for every other subclass of
    [Exception]; it stands for classes that derive from none of those named
    here, so that no [except] clause for a named class catches it. *)
Inductive exn_class : Type :=
| WebSocketDisconnect
| RuntimeError
| KeyError
| TypeError
| AttributeError
| ValueError
| BinasciiError
| JSONDecodeError
| OtherException (name : string).

(** An exception instance: its class and [str(e)]. *)
Record exn : Type := Exn { exn_type : exn_class; exn_str : string }.

Definition is_WebSocketDisconnect (e : exn) : bool :=
  match exn_type e with WebSocketDisconnect => true | _ => false end.

Definition is_RuntimeError (e : exn) : bool :=
  match exn_type e with RuntimeError => true | _ => false end.

Definition is_KeyError (e : exn) : bool :=
  match exn_type e with KeyError => true | _ => false end.

(** [json.JSONDecodeError] is a subclass of [ValueError]; only the
    [except json.JSONDecodeError] clause of [main.py] tests for it. *)
Definition is_JSONDecodeError (e : exn) : bool :=
  match exn_type e with JSONDecodeError => true | _ => false end.

(** The outcome of evaluating an expression: a value or a raised exception. *)
Inductive result (A : Type) : Type :=
| Ok (a : A)
| Raise (e : exn).
Arguments Ok {A} a.
Arguments Raise {A} e.


Definition squote : string := String "039"%char "".

(** [repr(k)] of a key without quotes or escapes in it. *)
Definition repr_key (k : string) : string := squote ++ k ++ squote.

Fixpoint assoc (k : string) (kvs : list (string * json)) : option json :=
  match kvs with
  | [] => None
  | (k', v) :: rest => if String.eqb k k' then Some v else assoc k rest
  end.

(** [d.get(k)]: only a dict has the method. *)
Definition get (d : json) (k : string) : result json :=
  match d with
  | JObj kvs =>
      match assoc k kvs with
      | Some v => Ok v
      | None => Ok JNull
      end
  | _ =>
      Raise (Exn AttributeError
               (squote ++ type_name d ++ squote
                ++ " object has no attribute " ++ squote ++ "get" ++ squote))
  end.

(** [d[k]] for a string key [k]. *)
Definition getitem (d : json) (k : string) : result json :=
  match d with
  | JObj kvs =>
      match assoc k kvs with
      | Some v => Ok v
      | None => Raise (Exn KeyError (repr_key k))
      end
  | JStr _ =>
      Raise (Exn TypeError "string indices must be integers, not 'str'")
  | JArr _ =>
      Raise (Exn TypeError "list indices must be integers or slices, not str")
  | _ =>
      Raise (Exn TypeError
               (squote ++ type_name d ++ squote ++ " object is not subscriptable"))
  end.

(** [list(d.keys())]. *)
Definition keys (d : json) : result (list string) :=
  match d with
  | JObj kvs => Ok (map fst kvs)
  | _ =>
      Raise (Exn AttributeError
               (squote ++ type_name d ++ squote
                ++ " object has no attribute " ++ squote ++ "keys" ++ squote))
  end.

(** [d.items()], as iterated by a [for] loop. *)
Definition items (d : json) : result (list (string * json)) :=
  match d with
  | JObj kvs => Ok kvs
  | _ =>
      Raise (Exn AttributeError
               (squote ++ type_name d ++ squote
                ++ " object has no attribute " ++ squote ++ "items" ++ squote))
  end.

End Py.

(** ** Base64, as the standard library's [base64] module computes it *)

Module Base64.
Import Py.

Definition alphabet : string :=
  "ABCDEFGHIJKLMNOPQRSTUVWXYZabcdefghijklmnopqrstuvwxyz0123456789+/".

Definition BASE64_PAD : ascii := "="%char.

(** The encoding table: the character of a six-bit value. *)
Definition table_b2a_base64 (n : N) : ascii :=
  match String.get (N.to_nat n) alphabet with
  | Some c => c
  | None => BASE64_PAD
  end.

(** The decoding table: the six-bit value of a character of the alphabet,
    [None] for every other character. *)
Definition table_a2b_base64 (c : ascii) : option N :=
  let n := N_of_ascii c in
  (if (65 <=? n) && (n <=? 90) then Some (n - 65)
   else if (97 <=? n) && (n <=? 122) then Some (n - 71)
   else if (48 <=? n) && (n <=? 57) then Some (n + 4)
   else if n =? 43 then Some 62
   else if n =? 47 then Some 63
   else None)%N.

(** A value stored into an [unsigned char]. *)
Definition byte_of_N (n : N) : byte :=
  match Byte.of_N (n mod 256) with
  | Some b => b
  | None => x00
  end.

(** [binascii.b2a_base64(data, newline=False)]: three bytes give four
    characters, a last group of one or two bytes is padded with [=]. *)
Fixpoint b2a_base64 (data : list byte) : list ascii :=
  match data with
  | [] => []
  | [a] =>
      let a := Byte.to_N a in
      [ table_b2a_base64 (N.shiftr a 2);
        table_b2a_base64 (N.shiftl (N.land a 3) 4);
        BASE64_PAD; BASE64_PAD ]
  | [a; b] =>
      let a := Byte.to_N a in
      let b := Byte.to_N b in
      [ table_b2a_base64 (N.shiftr a 2);
        table_b2a_base64 (N.lor (N.shiftl (N.land a 3) 4) (N.shiftr b 4));
        table_b2a_base64 (N.shiftl (N.land b 15) 2);
        BASE64_PAD ]
  | a :: b :: c :: rest =>
      let a := Byte.to_N a in
      let b := Byte.to_N b in
      let c := Byte.to_N c in
      table_b2a_base64 (N.shiftr a 2)
      :: table_b2a_base64 (N.lor (N.shiftl (N.land a 3) 4) (N.shiftr b 4))
      :: table_b2a_base64 (N.lor (N.shiftl (N.land b 15) 2) (N.shiftr c 6))
      :: table_b2a_base64 (N.land c 63)
      :: b2a_base64 rest
  end.

(** [base64.b64encode(s).decode("utf-8")]. *)
Definition b64encode (s : list byte) : string :=
  string_of_list_ascii (b2a_base64 s).

Definition string_of_nat (n : nat) : string :=
  NilZero.string_of_uint (Nat.to_uint n).

(** The loop of [binascii.a2b_base64] in its lenient mode: characters
    outside the alphabet are skipped, a pad sequence that completes a quad
    ends the input, and the bytes of a complete quad are emitted as soon as
    they are known. *)
Fixpoint a2b_loop (data : list ascii) (quad_pos : nat) (leftchar : N)
    (pads : nat) (out : list byte) : result (list byte) :=
  match data with
  | [] =>
      match quad_pos with
      | 0 => Ok out
      | 1 =>
          Raise (Exn BinasciiError
                   ("Invalid base64-encoded string: number of data characters ("
                    ++ string_of_nat (List.length out / 3 * 4 + 1)
                    ++ ") cannot be 1 more than a multiple of 4"))
      | _ => Raise (Exn BinasciiError "Incorrect padding")
      end
  | this_ch :: rest =>
      if Ascii.eqb this_ch BASE64_PAD then
        if 2 <=? quad_pos then
          if 4 <=? quad_pos + S pads then Ok out
          else a2b_loop rest quad_pos leftchar (S pads) out
        else a2b_loop rest quad_pos leftchar pads out
      else
        match table_a2b_base64 this_ch with
        | None => a2b_loop rest quad_pos leftchar pads out
        | Some v =>
            match quad_pos with
            | 0 => a2b_loop rest 1 v 0 out
            | 1 =>
                a2b_loop rest 2 (N.land v 15) 0
                  (out ++ [byte_of_N (N.lor (N.shiftl leftchar 2) (N.shiftr v 4))])
            | 2 =>
                a2b_loop rest 3 (N.land v 3) 0
                  (out ++ [byte_of_N (N.lor (N.shiftl leftchar 4) (N.shiftr v 2))])
            | _ =>
                a2b_loop rest 0 0 0
                  (out ++ [byte_of_N (N.lor (N.shiftl leftchar 6) v)])
            end
        end
  end%nat.

Definition a2b_base64 (data : list ascii) : result (list byte) :=
  a2b_loop data 0 0 0 [].

Definition is_ascii (c : ascii) : bool := (N_of_ascii c <? 128)%N.

(** [base64.b64decode(s)], without validation: a [str] must be ASCII, any
    other argument that is not bytes-like is a [TypeError]. *)
Definition b64decode (s : json) : result (list byte) :=
  match s with
  | JStr str =>
      if forallb is_ascii (list_ascii_of_string str)
      then a2b_base64 (list_ascii_of_string str)
      else Raise (Exn ValueError
                    "string argument should contain only ASCII characters")
  | _ =>
      Raise (Exn TypeError
               ("argument should be a bytes-like object or ASCII string, not "
                ++ squote ++ type_name s ++ squote))
  end.

End Base64.

(** ** [json.dumps] with its default arguments *)

Module Json.
Import Py.
Local Open Scope string_scope.

Definition dquote : string := String "034"%char "".
Definition backslash : string := String "092"%char "".

Definition hex_digit (n : N) : string :=
  match String.get (N.to_nat n) "0123456789abcdef" with
  | Some c => String c ""
  | None => "0"
  end.

(** One character of a string literal ([ensure_ascii=True]): the short
    escapes, the character itself from space to tilde, [\u00XX] otherwise. *)
Definition escape_char (c : ascii) : string :=
  let n := N_of_ascii c in
  if N.eqb n 34 then backslash ++ dquote
  else if N.eqb n 92 then backslash ++ backslash
  else if N.eqb n 10 then backslash ++ "n"
  else if N.eqb n 13 then backslash ++ "r"
  else if N.eqb n 9 then backslash ++ "t"
  else if N.eqb n 8 then backslash ++ "b"
  else if N.eqb n 12 then backslash ++ "f"
  else if N.leb 32 n && N.leb n 126 then String c ""
  else backslash ++ "u00" ++ hex_digit (N.div n 16) ++ hex_digit (N.modulo n 16).

Definition encode_basestring_ascii (s : string) : string :=
  dquote ++ String.concat "" (map escape_char (list_ascii_of_string s)) ++ dquote.

Section Dumps.

(** [float.__repr__] on finite floats, which the encoder calls and this
    repository does not define. *)
Variable float_repr : SpecFloat.spec_float -> string.

Definition floatstr (x : SpecFloat.spec_float) : string :=
  match x with
  | SpecFloat.S754_nan => "NaN"
  | SpecFloat.S754_infinity false => "Infinity"
  | SpecFloat.S754_infinity true => "-Infinity"
  | _ => float_repr x
  end.

Fixpoint dumps (v : json) : string :=
  match v with
  | JNull => "null"
  | JBool true => "true"
  | JBool false => "false"
  | JInt n => NilZero.string_of_int (Z.to_int n)
  | JFloat x => floatstr x
  | JStr s => encode_basestring_ascii s
  | JArr xs => "[" ++ String.concat ", " (map dumps xs) ++ "]"
  | JObj kvs =>
      "{"
      ++ String.concat ", "
           (map (fun kv =>
                   match kv with
                   | (k, x) => encode_basestring_ascii k ++ ": " ++ dumps x
                   end) kvs)
      ++ "}"
  end.

End Dumps.

End Json.

(** ** Effects: the bridge object, the environment and the event trace *)

Module Effects.
Import Py.

(** [starlette.websockets.WebSocketState]. *)
Inductive WebSocketState : Type :=
| CONNECTING
| CONNECTED
| DISCONNECTED
| RESPONSE.

Definition is_CONNECTED (st : WebSocketState) : bool :=
  match st with CONNECTED => true | _ => false end.

(** The function the agent session installs with [start]; it is known by
    name only. *)
Definition callback : Type := nat.

(** One constructor for each [print] statement of the two modules, with the
    values it formats, and [Traceback] for [traceback.print_exc()]. *)
Inductive log_entry : Type :=
(* send_audio_to_twilio *)
| SentAudio (len : nat)
| NotConnected (st : WebSocketState)
| AudioDisconnected (e : exn)
| AudioRuntimeError (e : exn)
| AudioUnexpected (e : exn)
| AudioAttemptingRetry
| AudioRetrySuccessful (len : nat)
| RetryStillNotConnected (st : WebSocketState)
| AudioRetryFailed (e : exn)
| AudioNoStreamSid
(* send_clear_message_to_twilio *)
| SentClear
| ClearDisconnected (e : exn)
| ClearRuntimeError (e : exn)
| ClearUnexpected (e : exn)
| ClearAttemptingRetry
| ClearRetrySuccessful
| ClearRetryFailed (e : exn)
| ClearNoStreamSid
(* handle_twilio_message *)
| Handling (event_type : json)
| StreamStarted (sid : json)
| ReceivedAudio (len : nat)
| NoInputCallback
| Unhandled (event_type : json)
| MissingKey (e : exn)
| AvailableKeys (ks : list string)
| FullMessageData (data : json)
| HandleError (e : exn)
| MessageData (data : json)
| HandleAttemptingRetry
| RetryStreamStarted (sid : json)
| RetryReceivedAudio (len : nat)
| RetryHandled (event_type : json)
| HandleRetryFailed (e : exn)
(* handle_media_stream *)
| LoopError (e : exn)
| MessageContent (message : string)
| LoopAttemptingRetry
| LoopRetrySuccessful
| LoopRetryFailed (e : exn)
(* handle_tool_call *)
| ToolReceived (tool_name : string)
| ToolHeaders (headers : list (string * string))
| ToolBody (body : json)
| ToolParameters
| ToolParameter (key : string) (value : json)
| ToolSuccess (tool_name : string) (r : json)
| ToolFailed (tool_name : string) (error : json)
| ToolJsonError (tool_name : string) (error_msg : string)
| ToolException (tool_name : string) (error_msg : string)
(* traceback.print_exc() *)
| Traceback (e : exn).

(** What a run does to the outside, in order. *)
Inductive event : Type :=
| EvState (st : WebSocketState)            (* a read of websocket.application_state *)
| EvSend (text : string)                   (* a call of websocket.send_text *)
| EvCall (cb : callback) (audio : list byte) (* a call of the installed callback *)
| EvLog (l : log_entry).

(** The fields of a [TwilioAudioInterface] and, for the environment, how
    often the socket state has been read, [send_text] called and the
    callback called so far. *)
Record world : Type := World {
  stream_sid : json;
  input_callback : option callback;
  reads : nat;
  sends : nat;
  calls : nat
}.

(** [TwilioAudioInterface.__init__]. *)
Definition init : world :=
  {| stream_sid := JNull; input_callback := None;
     reads := 0; sends := 0; calls := 0 |}.

(** A computation: from a world to an outcome, the next world and the
    events emitted on the way.  State changes made before an exception is
    raised are kept, as in Python. *)
Definition M (A : Type) : Type := world -> result A * world * list event.

Definition ret {A} (a : A) : M A := fun w => (Ok a, w, []).

Definition raise {A} (e : exn) : M A := fun w => (Raise e, w, []).

Definition bind {A B} (m : M A) (k : A -> M B) : M B :=
  fun w =>
    match m w with
    | (Ok a, w1, evs1) =>
        match k a w1 with
        | (r, w2, evs2) => (r, w2, evs1 ++ evs2)
        end
    | (Raise e, w1, evs1) => (Raise e, w1, evs1)
    end.

(** [try: m  except Exception as e: h e]. *)
Definition try_except {A} (m : M A) (h : exn -> M A) : M A :=
  fun w =>
    match m w with
    | (Ok a, w1, evs1) => (Ok a, w1, evs1)
    | (Raise e, w1, evs1) =>
        match h e w1 with
        | (r, w2, evs2) => (r, w2, evs1 ++ evs2)
        end
    end.

(** An expression without effects that may raise. *)
Definition lift {A} (r : result A) : M A := fun w => (r, w, []).

Definition print (l : log_entry) : M unit := fun w => (Ok tt, w, [EvLog l]).

Definition outcome {A} (x : result A * world * list event) : result A :=
  fst (fst x).
Definition final {A} (x : result A * world * list event) : world :=
  snd (fst x).
Definition emitted {A} (x : result A * world * list event) : list event :=
  snd x.

Declare Scope py_scope.
Delimit Scope py_scope with py.
Notation "x <- m ;; k" := (bind m (fun x => k))
  (at level 61, m at next level, right associativity) : py_scope.
Notation "m ;; k" := (bind m (fun _ => k))
  (at level 61, right associativity) : py_scope.

End Effects.

(** ** [twilio_audio_interface.py]: the class [TwilioAudioInterface] *)

Module TwilioAudioInterface.
Import Py Effects.
Local Open Scope py_scope.

Section Bridge.

(** The environment of one run.  The socket is the peer's: the state seen
    by the [n]-th read of [websocket.application_state], and whether the
    [n]-th call of [websocket.send_text] returns ([None]) or raises.  The
    installed callback is the agent session's: whether its [n]-th call
    returns or raises. *)
Variable application_state : nat -> WebSocketState.
Variable send_text_raises : nat -> string -> option exn.
Variable callback_raises : callback -> nat -> list byte -> option exn.
Variable float_repr : SpecFloat.spec_float -> string.

(** [self.websocket.application_state]. *)
Definition read_application_state : M WebSocketState :=
  fun w =>
    let st := application_state (reads w) in
    (Ok st,
     {| stream_sid := stream_sid w; input_callback := input_callback w;
        reads := S (reads w); sends := sends w; calls := calls w |},
     [EvState st]).

(** [await self.websocket.send_text(text)]. *)
Definition send_text (text : string) : M unit :=
  fun w =>
    let w' :=
      {| stream_sid := stream_sid w; input_callback := input_callback w;
         reads := reads w; sends := S (sends w); calls := calls w |} in
    match send_text_raises (sends w) text with
    | None => (Ok tt, w', [EvSend text])
    | Some e => (Raise e, w', [EvSend text])
    end.

(** [cb(audio)] for the installed callback [cb]. *)
Definition call_callback (cb : callback) (audio : list byte) : M unit :=
  fun w =>
    let w' :=
      {| stream_sid := stream_sid w; input_callback := input_callback w;
         reads := reads w; sends := sends w; calls := S (calls w) |} in
    match callback_raises cb (calls w) audio with
    | None => (Ok tt, w', [EvCall cb audio])
    | Some e => (Raise e, w', [EvCall cb audio])
    end.

Definition get_stream_sid : M json :=
  fun w => (Ok (stream_sid w), w, []).

Definition set_stream_sid (v : json) : M unit :=
  fun w =>
    (Ok tt,
     {| stream_sid := v; input_callback := input_callback w;
        reads := reads w; sends := sends w; calls := calls w |},
     []).

Definition get_input_callback : M (option callback) :=
  fun w => (Ok (input_callback w), w, []).

Definition set_input_callback (cb : option callback) : M unit :=
  fun w =>
    (Ok tt,
     {| stream_sid := stream_sid w; input_callback := cb;
        reads := reads w; sends := sends w; calls := calls w |},
     []).

(** [start(self, input_callback)]. *)
Definition start (cb : callback) : M unit :=
  set_input_callback (Some cb).

(** [stop(self)]. *)
Definition stop : M unit :=
  set_input_callback None ;;
  set_stream_sid JNull.

(** The dict [audio_delta] of [send_audio_to_twilio]. *)
Definition audio_delta (sid : json) (audio : list byte) : json :=
  let audio_payload := Base64.b64encode audio in
  JObj [ ("event", JStr "media");
         ("streamSid", sid);
         ("media", JObj [("payload", JStr audio_payload)]) ].

(** The dict [clear_message] of [send_clear_message_to_twilio]. *)
Definition clear_message (sid : json) : json :=
  JObj [ ("event", JStr "clear"); ("streamSid", sid) ].

(** [send_audio_to_twilio(self, audio)].  The dict is built first in the
    [try] block, which cannot raise, and the retry writes the same dict. *)
Definition send_audio_to_twilio (audio : list byte) : M unit :=
  sid <- get_stream_sid ;;
  if truthy sid then
    let audio_delta := audio_delta sid audio in
    try_except
      (st <- read_application_state ;;
       if is_CONNECTED st then
         send_text (Json.dumps float_repr audio_delta) ;;
         print (SentAudio (List.length audio))
       else
         st' <- read_application_state ;;
         print (NotConnected st'))
      (fun e =>
         if is_WebSocketDisconnect e then print (AudioDisconnected e)
         else if is_RuntimeError e then print (AudioRuntimeError e)
         else
           print (AudioUnexpected e) ;;
           print AudioAttemptingRetry ;;
           try_except
             (st <- read_application_state ;;
              if is_CONNECTED st then
                send_text (Json.dumps float_repr audio_delta) ;;
                print (AudioRetrySuccessful (List.length audio))
              else
                st' <- read_application_state ;;
                print (RetryStillNotConnected st'))
             (fun retry_e =>
                print (AudioRetryFailed retry_e) ;;
                print (Traceback retry_e)))
  else
    print AudioNoStreamSid.

(** [send_clear_message_to_twilio(self)]. *)
Definition send_clear_message_to_twilio : M unit :=
  sid <- get_stream_sid ;;
  if truthy sid then
    let clear_message := clear_message sid in
    try_except
      (st <- read_application_state ;;
       if is_CONNECTED st then
         send_text (Json.dumps float_repr clear_message) ;;
         print SentClear
       else
         st' <- read_application_state ;;
         print (NotConnected st'))
      (fun e =>
         if is_WebSocketDisconnect e then print (ClearDisconnected e)
         else if is_RuntimeError e then print (ClearRuntimeError e)
         else
           print (ClearUnexpected e) ;;
           print ClearAttemptingRetry ;;
           try_except
             (st <- read_application_state ;;
              if is_CONNECTED st then
                send_text (Json.dumps float_repr clear_message) ;;
                print ClearRetrySuccessful
              else
                st' <- read_application_state ;;
                print (RetryStillNotConnected st'))
             (fun retry_e =>
                print (ClearRetryFailed retry_e) ;;
                print (Traceback retry_e)))
  else
    print ClearNoStreamSid.

(** [output(self, audio)] and [interrupt(self)] hand the coroutine to the
    event loop that owns the socket; here the coroutine runs when it is
    handed over. *)
Definition output (audio : list byte) : M unit :=
  send_audio_to_twilio audio.

Definition interrupt : M unit :=
  send_clear_message_to_twilio.

(** The [try] block of [handle_twilio_message]. *)
Definition handle_twilio_message_try (data : json) : M unit :=
  event_type <- lift (get data "event") ;;
  print (Handling event_type) ;;
  if eq_str event_type "start" then
    start_ <- lift (getitem data "start") ;;
    sid <- lift (getitem start_ "streamSid") ;;
    set_stream_sid sid ;;
    sid' <- get_stream_sid ;;
    print (StreamStarted sid')
  else
    cb <- get_input_callback ;;
    match eq_str event_type "media", cb with
    | true, Some cb =>
        media <- lift (getitem data "media") ;;
        payload <- lift (getitem media "payload") ;;
        audio_data <- lift (Base64.b64decode payload) ;;
        print (ReceivedAudio (List.length audio_data)) ;;
        call_callback cb audio_data
    | true, None => print NoInputCallback
    | false, _ => print (Unhandled event_type)
    end.

(** The [try] block of its [except Exception] clause: the retry. *)
Definition handle_twilio_message_retry (data : json) : M unit :=
  event_type <- lift (get data "event") ;;
  if eq_str event_type "start" then
    start_ <- lift (getitem data "start") ;;
    sid <- lift (getitem start_ "streamSid") ;;
    set_stream_sid sid ;;
    sid' <- get_stream_sid ;;
    print (RetryStreamStarted sid')
  else
    cb <- get_input_callback ;;
    match eq_str event_type "media", cb with
    | true, Some cb =>
        media <- lift (getitem data "media") ;;
        payload <- lift (getitem media "payload") ;;
        audio_data <- lift (Base64.b64decode payload) ;;
        print (RetryReceivedAudio (List.length audio_data)) ;;
        call_callback cb audio_data
    | _, _ => print (RetryHandled event_type)
    end.

(** [handle_twilio_message(self, data)]. *)
Definition handle_twilio_message (data : json) : M unit :=
  try_except
    (handle_twilio_message_try data)
    (fun e =>
       if is_KeyError e then
         print (MissingKey e) ;;
         ks <- lift (keys data) ;;
         print (AvailableKeys ks) ;;
         print (FullMessageData data)
       else
         print (HandleError e) ;;
         print (MessageData data) ;;
         print HandleAttemptingRetry ;;
         try_except
           (handle_twilio_message_retry data)
           (fun retry_e =>
              print (HandleRetryFailed retry_e) ;;
              print (Traceback retry_e))).

End Bridge.

End TwilioAudioInterface.

(** ** [main.py]: the tool endpoint and the read loop of the media stream *)

Module Main.
Import Py Effects.
Local Open Scope py_scope.

(** What [handle_tool_call] uses of a [fastapi.Request]. *)
Record Request : Type := {
  headers : list (string * string);
  body : string
}.

Definition is_None (v : json) : bool :=
  match v with JNull => true | _ => false end.

(** A [for] loop whose body is a [print]. *)
Fixpoint print_each {A} (f : A -> log_entry) (xs : list A) : M unit :=
  match xs with
  | [] => ret tt
  | x :: rest => print (f x) ;; print_each f rest
  end.

Section Orchestrator.

(** [json.loads], the standard library's parser. *)
Variable json_loads : string -> result json.

(** [function_handlers.handle_function_call], which returns the pair
    [(result, error)] or raises; the module is not part of these sources
    and what it does besides is not modelled. *)
Variable handle_function_call : string -> json -> result (json * json).

Variable callback_raises : callback -> nat -> list byte -> option exn.

(** [await request.json()]. *)
Definition request_json (request : Request) : M json :=
  lift (json_loads (body request)).

(** [handle_tool_call(tool_name, request)]: the value returned is the
    response body. *)
Definition handle_tool_call (tool_name : string) (request : Request) : M json :=
  try_except
    (request_body <- request_json request ;;
     print (ToolReceived tool_name) ;;
     print (ToolHeaders (headers request)) ;;
     print (ToolBody request_body) ;;
     print ToolParameters ;;
     kvs <- lift (items request_body) ;;
     print_each (fun kv => ToolParameter (fst kv) (snd kv)) kvs ;;
     pair <- lift (handle_function_call tool_name request_body) ;;
     let (result, error) := pair : json * json in
     if negb (is_None result) then
       print (ToolSuccess tool_name result) ;;
       ret result
     else
       print (ToolFailed tool_name error) ;;
       ret (JObj [("success", JBool false); ("error", error)]))
    (fun e =>
       if is_JSONDecodeError e then
         let error_msg := ("Invalid JSON in request body: " ++ exn_str e)%string in
         print (ToolJsonError tool_name error_msg) ;;
         ret (JObj [("success", JBool false); ("error", JStr error_msg)])
       else
         let error_msg :=
           ("Unexpected error in tool endpoint: " ++ exn_str e)%string in
         print (ToolException tool_name error_msg) ;;
         print (Traceback e) ;;
         ret (JObj [("success", JBool false); ("error", JStr error_msg)])).

(** The body of the [async for] loop of [handle_media_stream], for one
    text frame [message]. *)
Definition handle_media_stream_message (message : string) : M unit :=
  if String.eqb message "" then ret tt
  else
    try_except
      (data <- lift (json_loads message) ;;
       TwilioAudioInterface.handle_twilio_message callback_raises data)
      (fun e =>
         print (LoopError e) ;;
         print (MessageContent message) ;;
         print LoopAttemptingRetry ;;
         try_except
           (data <- lift (json_loads message) ;;
            TwilioAudioInterface.handle_twilio_message callback_raises data ;;
            print LoopRetrySuccessful)
           (fun retry_e =>
              print (LoopRetryFailed retry_e) ;;
              print (Traceback retry_e))).

(** The loop over the frames [websocket.iter_text()] yields until the
    socket closes. *)
Fixpoint handle_media_stream_loop (messages : list string) : M unit :=
  match messages with
  | [] => ret tt
  | message :: rest =>
      handle_media_stream_message message ;;
      handle_media_stream_loop rest
  end.

End Orchestrator.

End Main.

(** ** Definitions used to state the properties *)

Module Base64Spec.
Import Py Base64.

(** Every byte, in order. *)
Definition all_bytes : list byte :=
  map byte_of_N (map N.of_nat (seq 0 256)).

(** The four six-bit values of a group of three bytes. *)
Definition sextet0 (a : byte) : N := N.shiftr (Byte.to_N a) 2.
Definition sextet1 (a b : byte) : N :=
  N.lor (N.shiftl (N.land (Byte.to_N a) 3) 4) (N.shiftr (Byte.to_N b) 4).
Definition sextet2 (b c : byte) : N :=
  N.lor (N.shiftl (N.land (Byte.to_N b) 15) 2) (N.shiftr (Byte.to_N c) 6).
Definition sextet3 (c : byte) : N := N.land (Byte.to_N c) 63.

(** Checks that are decided by running them on every input. *)
Definition table_ok (n : N) : bool :=
  negb (Ascii.eqb (table_b2a_base64 n) BASE64_PAD)
  && is_ascii (table_b2a_base64 n)
  && match table_a2b_base64 (table_b2a_base64 n) with
     | Some m => N.eqb m n
     | None => false
     end.

Definition sextets_bounded (a b : byte) : bool :=
  ((sextet0 a <? 64) && (sextet1 a b <? 64) && (sextet2 a b <? 64)
   && (sextet3 a <? 64)
   && (N.shiftl (N.land (Byte.to_N a) 3) 4 <? 64)
   && (N.shiftl (N.land (Byte.to_N a) 15) 2 <? 64))%N.

Definition sextets_inverted (a b : byte) : bool :=
  Byte.eqb
    (byte_of_N (N.lor (N.shiftl (sextet0 a) 2) (N.shiftr (sextet1 a b) 4))) a
  && N.eqb (N.land (sextet1 a b) 15) (N.shiftr (Byte.to_N b) 4)
  && Byte.eqb
       (byte_of_N (N.lor (N.shiftl (N.shiftr (Byte.to_N a) 4) 4)
                     (N.shiftr (sextet2 a b) 2))) a
  && N.eqb (N.land (sextet2 a b) 3) (N.shiftr (Byte.to_N b) 6)
  && Byte.eqb
       (byte_of_N (N.lor (N.shiftl (N.shiftr (Byte.to_N a) 6) 6) (sextet3 a))) a
  && Byte.eqb
       (byte_of_N (N.lor (N.shiftl (sextet0 a) 2)
                     (N.shiftr (N.shiftl (N.land (Byte.to_N a) 3) 4) 4))) a
  && Byte.eqb
       (byte_of_N (N.lor (N.shiftl (N.shiftr (Byte.to_N a) 4) 4)
                     (N.shiftr (N.shiftl (N.land (Byte.to_N a) 15) 2) 2))) a.

End Base64Spec.

Module Trace.
Import Py Effects.
Local Open Scope py_scope.

(** The texts handed to [send_text], in order. *)
Fixpoint sends_of (evs : list event) : list string :=
  match evs with
  | [] => []
  | EvSend text :: rest => text :: sends_of rest
  | _ :: rest => sends_of rest
  end.

(** The calls of the installed callback, in order. *)
Fixpoint calls_of (evs : list event) : list (callback * list byte) :=
  match evs with
  | [] => []
  | EvCall cb audio :: rest => (cb, audio) :: calls_of rest
  | _ :: rest => calls_of rest
  end.

(** The entries printed, in order. *)
Fixpoint logs_of (evs : list event) : list log_entry :=
  match evs with
  | [] => []
  | EvLog l :: rest => l :: logs_of rest
  | _ :: rest => logs_of rest
  end.






(** Every write comes directly after a read of the socket state that saw
    [CONNECTED]; [seen_open] tells whether the event before was one. *)
Fixpoint sends_guarded (seen_open : bool) (evs : list event) : bool :=
  match evs with
  | [] => true
  | EvState st :: rest => sends_guarded (is_CONNECTED st) rest
  | EvSend _ :: rest => seen_open && sends_guarded false rest
  | _ :: rest => sends_guarded false rest
  end.

(** After a read of the socket state that saw another state than
    [CONNECTED], nothing is written any more and an entry is printed. *)
Fixpoint not_open_skips (evs : list event) : bool :=
  match evs with
  | [] => true
  | EvState st :: rest =>
      (is_CONNECTED st
       || (match sends_of rest with [] => true | _ => false end
           && match logs_of rest with [] => false | _ => true end))
      && not_open_skips rest
  | _ :: rest => not_open_skips rest
  end.

(** [data["start"]["streamSid"]]. *)
Definition start_stream_sid (data : json) : result json :=
  match getitem data "start" with
  | Ok start_ => getitem start_ "streamSid"
  | Raise e => Raise e
  end.

(** [base64.b64decode(data["media"]["payload"])]. *)
Definition media_audio_data (data : json) : result (list byte) :=
  match getitem data "media" with
  | Ok media =>
      match getitem media "payload" with
      | Ok payload => Base64.b64decode payload
      | Raise e => Raise e
      end
  | Raise e => Raise e
  end.

(** The stream identifier a start event carries, if [data] is one and
    carries one. *)
Definition carried_stream_sid (data : json) : option json :=
  match get data "event" with
  | Ok event_type =>
      if eq_str event_type "start" then
        match start_stream_sid data with
        | Ok sid => Some sid
        | Raise _ => None
        end
      else None
  | Raise _ => None
  end.

(** The identifier of the last start event of [events] that carries one,
    [sid] when there is none. *)
Definition last_stream_sid (events : list json) (sid : json) : json :=
  fold_left
    (fun sid data =>
       match carried_stream_sid data with
       | Some sid' => sid'
       | None => sid
       end)
    events sid.

Definition is_start_event (data : json) : bool :=
  match get data "event" with
  | Ok event_type => eq_str event_type "start"
  | Raise _ => false
  end.

Definition is_media_event (data : json) : bool :=
  match get data "event" with
  | Ok event_type => eq_str event_type "media"
  | Raise _ => false
  end.


Section WithEnvironment.

Variable json_loads : string -> result json.
Variable callback_raises : callback -> nat -> list byte -> option exn.




(** Successive calls of [handle_twilio_message], one for each event. *)
Fixpoint handle_twilio_messages (events : list json) : M unit :=
  match events with
  | [] => ret tt
  | data :: rest =>
      TwilioAudioInterface.handle_twilio_message callback_raises data ;;
      handle_twilio_messages rest
  end.



End WithEnvironment.

(** The body of the response of the tool endpoint after a failure. *)
Definition error_response (error : json) : json :=
  JObj [ ("success", JBool false); ("error", error) ].

(** What the agent session asks the bridge to write: audio through
    [output], a clear signal through [interrupt]. *)
Inductive outbound : Type :=
| Media (audio : list byte)
| Clear.

Section Outbound.

Variable application_state : nat -> WebSocketState.
Variable send_text_raises : nat -> string -> option exn.
Variable float_repr : SpecFloat.spec_float -> string.

Definition emit (f : outbound) : M unit :=
  match f with
  | Media audio =>
      TwilioAudioInterface.output application_state send_text_raises
        float_repr audio
  | Clear =>
      TwilioAudioInterface.interrupt application_state send_text_raises
        float_repr
  end.

(** The text of the frame written for [f] under the stream identifier
    [sid]. *)
Definition frame_text (sid : json) (f : outbound) : string :=
  match f with
  | Media audio =>
      Json.dumps float_repr (TwilioAudioInterface.audio_delta sid audio)
  | Clear => Json.dumps float_repr (TwilioAudioInterface.clear_message sid)
  end.

End Outbound.

(** The clear frame of the stream S1, as text:
    an object with the keys event and streamSid. *)
Definition clear_S1_text : string :=
  ("{" ++ Json.dquote ++ "event" ++ Json.dquote ++ ": "
   ++ Json.dquote ++ "clear" ++ Json.dquote ++ ", "
   ++ Json.dquote ++ "streamSid" ++ Json.dquote ++ ": "
   ++ Json.dquote ++ "S1" ++ Json.dquote ++ "}")%string.

End Trace.

(** ** Concrete environments and frames *)

Module Samples.
Import Py Effects.

(** A run whose values hold no float never asks for the text of one. *)
Definition no_floats (x : SpecFloat.spec_float) : string := "".

Definition always_connected (n : nat) : WebSocketState := CONNECTED.

Definition never_raises (n : nat) (text : string) : option exn := None.

(** The bridge after the start event of the stream S1. *)
Definition streaming_S1 : world :=
  {| stream_sid := JStr "S1"; input_callback := None;
     reads := 0; sends := 0; calls := 0 |}.




(** A callback that returns on every call. *)
Definition callback_returns (cb : callback) (n : nat) (audio : list byte)
  : option exn := None.

(** The start event of the stream [sid], as the wire protocol has it. *)
Definition start_event (sid : string) : json :=
  JObj [ ("event", JStr "start"); ("start", JObj [("streamSid", JStr sid)]) ].


(** A media event without its payload. *)
Definition media_without_payload : json :=
  JObj [ ("event", JStr "media"); ("media", JObj []) ].

(** A media event with the payload [payload]. *)
Definition media_event (payload : string) : json :=
  JObj [ ("event", JStr "media"); ("media", JObj [("payload", JStr payload)]) ].

(** The bridge once the agent session has installed the callback 7. *)
Definition listening : world :=
  {| stream_sid := JNull; input_callback := Some 7;
     reads := 0; sends := 0; calls := 0 |}.

(** The text of a frame without floats. *)
Definition text_of (data : json) : string := Json.dumps no_floats data.

(** A parser that knows one frame: the text of [data] is parsed to [data],
    as [json.loads] does, and no other text is asked for. *)
Definition loads_only (data : json) (message : string) : result json :=
  if String.eqb message (text_of data) then Ok data
  else Raise (Exn JSONDecodeError "Expecting value: line 1 column 1 (char 0)").

(** A tool request with a JSON object as its body, and one whose body
    is cut off. *)
Definition weather_arguments : json := JObj [("city", JStr "Paris")].

Definition weather_request : Main.Request :=
  {| Main.headers := [("content-type", "application/json")];
     Main.body := text_of weather_arguments |}.

Definition cut_off_request : Main.Request :=
  {| Main.headers := [("content-type", "application/json")];
     Main.body := "{" |}.

(** Handlers: one that answers, one that reports an error, one that
    raises. *)
Definition weather_report : json := JObj [("temperature", JInt 21)].

Definition answering_handler (tool_name : string) (arguments : json)
  : result (json * json) := Ok (weather_report, JNull).

Definition refusing_handler (tool_name : string) (arguments : json)
  : result (json * json) := Ok (JNull, JStr "Unknown function").

Definition raising_handler (tool_name : string) (arguments : json)
  : result (json * json) := Raise (Exn ValueError "bad arguments").

End Samples.

(** ** [main.py]: the whole of [handle_media_stream] *)

Module MediaStream.
Import Py Effects.

(** The calls [handle_media_stream] makes on the agent session:
    [Conversation(...)] and the three methods of the object it returns. *)
Inductive session_call : Type :=
| Conversation
| start_session
| end_session
| wait_for_session_end.

(** One constructor for each [print] statement of [handle_media_stream]
    outside its read loop, and [StreamTraceback] for its
    [traceback.print_exc()]. *)
Inductive stream_log : Type :=
| WebSocketOpened
| ConversationStarted
| WebSocketDisconnected
| HandlerError
| ConversationEnded
| ErrorEndingSession
| StreamTraceback (e : exn).

(** What a run of [handle_media_stream] does, in order. *)
Inductive stream_event : Type :=
| Accept                      (* await websocket.accept() *)
| Client                      (* ElevenLabs(api_key=...) *)
| Session (c : session_call)  (* a call on the agent session *)
| Bridge (ev : event)         (* an event of the read loop *)
| Print (l : stream_log).

(** The local variables that matter: the bridge, and whether
    [conversation] has been assigned. *)
Record locals : Type := Locals {
  audio_interface : world;
  conversation : bool
}.

(** The locals on entry; [audio_interface] is assigned before it is used. *)
Definition entry : locals :=
  {| audio_interface := init; conversation := false |}.

Definition H (A : Type) : Type :=
  locals -> result A * locals * list stream_event.

Definition hret {A} (a : A) : H A := fun s => (Ok a, s, []).

Definition hbind {A B} (m : H A) (k : A -> H B) : H B :=
  fun s =>
    match m s with
    | (Ok a, s1, evs1) =>
        match k a s1 with
        | (r, s2, evs2) => (r, s2, evs1 ++ evs2)
        end
    | (Raise e, s1, evs1) => (Raise e, s1, evs1)
    end.

(** [try: m  except Exception as e: h e]. *)
Definition htry {A} (m : H A) (h : exn -> H A) : H A :=
  fun s =>
    match m s with
    | (Ok a, s1, evs1) => (Ok a, s1, evs1)
    | (Raise e, s1, evs1) =>
        match h e s1 with
        | (r, s2, evs2) => (r, s2, evs1 ++ evs2)
        end
    end.

(** [try: m  finally: f]: [f] runs however [m] ends; an exception of [f]
    replaces the outcome of [m]. *)
Definition hfinally {A} (m : H A) (f : H unit) : H A :=
  fun s =>
    match m s with
    | (r, s1, evs1) =>
        match f s1 with
        | (Ok _, s2, evs2) => (r, s2, evs1 ++ evs2)
        | (Raise e, s2, evs2) => (Raise e, s2, evs1 ++ evs2)
        end
    end.

Definition hprint (l : stream_log) : H unit := fun s => (Ok tt, s, [Print l]).

(** A call of the environment that returns or raises. *)
Definition step (ev : stream_event) (raises : option exn) : H unit :=
  fun s =>
    (match raises with None => Ok tt | Some e => Raise e end, s, [ev]).

(** A computation of the bridge, run on [audio_interface]. *)
Definition in_bridge {A} (m : M A) : H A :=
  fun s =>
    match m (audio_interface s) with
    | (r, w, evs) =>
        (r, {| audio_interface := w; conversation := conversation s |},
         map Bridge evs)
    end.

Definition houtcome {A} (x : result A * locals * list stream_event)
  : result A := fst (fst x).
Definition hfinal {A} (x : result A * locals * list stream_event)
  : locals := snd (fst x).
Definition hemitted {A} (x : result A * locals * list stream_event)
  : list stream_event := snd x.

Declare Scope stream_scope.
Delimit Scope stream_scope with stream.
Notation "x <- m ;; k" := (hbind m (fun x => k))
  (at level 61, m at next level, right associativity) : stream_scope.
Notation "m ;; k" := (hbind m (fun _ => k))
  (at level 61, right associativity) : stream_scope.
Local Open Scope stream_scope.

(** The name [conversation] read before it was assigned. *)
Definition UnboundLocalError : exn :=
  Exn (OtherException "UnboundLocalError")
    "cannot access local variable 'conversation' where it is not associated with a value".

Section Stream.

(** The environment of one call.  Whether [websocket.accept()] and
    [ElevenLabs(...)] raise; for each call on the agent session, whether it
    raises and what the session has done to the bridge (through [start] and
    [stop]) by the time the call is over; the text frames the socket
    yields, and whether the iteration then ends or raises. *)
Variable accept_raises : option exn.
Variable client_raises : option exn.
Variable session_raises : session_call -> option exn.
Variable session_effect : session_call -> world -> world.
Variable json_loads : string -> result json.
Variable callback_raises : callback -> nat -> list byte -> option exn.
Variable messages : list string.
Variable iteration_raises : option exn.

(** A call on the agent session. *)
Definition call_session (c : session_call) : H unit :=
  fun s =>
    (match session_raises c with None => Ok tt | Some e => Raise e end,
     {| audio_interface := session_effect c (audio_interface s);
        conversation := conversation s |},
     [Session c]).

(** [audio_interface = TwilioAudioInterface(websocket)]. *)
Definition new_audio_interface : H unit :=
  fun s =>
    (Ok tt, {| audio_interface := init; conversation := conversation s |}, []).

(** The assignment to [conversation]. *)
Definition assign_conversation : H unit :=
  fun s =>
    (Ok tt, {| audio_interface := audio_interface s; conversation := true |},
     []).

(** A read of [conversation]. *)
Definition read_conversation : H unit :=
  fun s =>
    (if conversation s then Ok tt else Raise UnboundLocalError, s, []).

(** How [websocket.iter_text()] ends once the frames are through. *)
Definition end_of_frames : H unit :=
  fun s =>
    (match iteration_raises with None => Ok tt | Some e => Raise e end, s, []).

(** [handle_media_stream(websocket)]. *)
Definition handle_media_stream : H unit :=
  step Accept accept_raises ;;
  hprint WebSocketOpened ;;
  new_audio_interface ;;
  step Client client_raises ;;
  hfinally
    (htry
       (call_session Conversation ;;
        assign_conversation ;;
        read_conversation ;;
        call_session start_session ;;
        hprint ConversationStarted ;;
        in_bridge
          (Main.handle_media_stream_loop json_loads callback_raises messages) ;;
        end_of_frames)
       (fun e =>
          if is_WebSocketDisconnect e then hprint WebSocketDisconnected
          else
            hprint HandlerError ;;
            hprint (StreamTraceback e)))
    (htry
       (read_conversation ;;
        call_session end_session ;;
        read_conversation ;;
        call_session wait_for_session_end ;;
        hprint ConversationEnded)
       (fun e =>
          hprint ErrorEndingSession ;;
          hprint (StreamTraceback e))).

End Stream.

End MediaStream.

(** ** More definitions used to state properties *)

Module Lifecycle.
Import Py Effects MediaStream Trace.

(** The calls on the agent session, in order. *)
Fixpoint session_calls (evs : list stream_event) : list session_call :=
  match evs with
  | [] => []
  | Session c :: rest => c :: session_calls rest
  | _ :: rest => session_calls rest
  end.

(** The events of the read loop, in order. *)
Fixpoint bridge_events (evs : list stream_event) : list event :=
  match evs with
  | [] => []
  | Bridge ev :: rest => ev :: bridge_events rest
  | _ :: rest => bridge_events rest
  end.

(** The entries printed outside the read loop, in order. *)
Fixpoint stream_logs (evs : list stream_event) : list stream_log :=
  match evs with
  | [] => []
  | Print l :: rest => l :: stream_logs rest
  | _ :: rest => stream_logs rest
  end.

(** What the [except] clauses of [handle_media_stream] print for [e]. *)
Definition handler_events (e : exn) : list stream_event :=
  if is_WebSocketDisconnect e then [Print WebSocketDisconnected]
  else [Print HandlerError; Print (StreamTraceback e)].

(** What the [finally] clause does once [conversation] is assigned. *)
Definition teardown_events (session_raises : session_call -> option exn)
  : list stream_event :=
  Session end_session
  :: match session_raises end_session with
     | Some e => [Print ErrorEndingSession; Print (StreamTraceback e)]
     | None =>
         Session wait_for_session_end
         :: match session_raises wait_for_session_end with
            | Some e => [Print ErrorEndingSession; Print (StreamTraceback e)]
            | None => [Print ConversationEnded]
            end
     end.

Definition is_ended (l : stream_log) : bool :=
  match l with ConversationEnded => true | _ => false end.

Definition is_ending_error (l : stream_log) : bool :=
  match l with ErrorEndingSession => true | _ => false end.

(** The message of the response of the tool endpoint for an exception. *)
Definition tool_error_message (e : exn) : string :=
  ((if is_JSONDecodeError e then "Invalid JSON in request body: "
    else "Unexpected error in tool endpoint: ") ++ exn_str e)%string.

(** The states read from the socket, in order. *)
Fixpoint states_of (evs : list event) : list WebSocketState :=
  match evs with
  | [] => []
  | EvState st :: rest => st :: states_of rest
  | _ :: rest => states_of rest
  end.

Section WithParser.

Variable json_loads : string -> result json.

(** The audio a text frame carries: the frame is not empty, parses to a
    media event, and its payload decodes. *)
Definition media_audio_of (message : string) : option (list byte) :=
  if String.eqb message "" then None
  else
    match json_loads message with
    | Ok data =>
        if is_media_event data then
          match media_audio_data data with
          | Ok audio => Some audio
          | Raise _ => None
          end
        else None
    | Raise _ => None
    end.

(** What the callback [cb] is to receive from a sequence of frames. *)
Definition deliveries (cb : callback) (messages : list string)
  : list (callback * list byte) :=
  flat_map
    (fun message =>
       match media_audio_of message with
       | Some audio => [(cb, audio)]
       | None => []
       end)
    messages.

End WithParser.

(** The text of the audio frame of the stream [sid], written out: the
    identifier and the base64 text stand between quotes as they are. *)
Definition media_frame_text (sid : string) (audio : list byte) : string :=
  ("{" ++ Json.dquote ++ "event" ++ Json.dquote ++ ": "
   ++ Json.dquote ++ "media" ++ Json.dquote ++ ", "
   ++ Json.dquote ++ "streamSid" ++ Json.dquote ++ ": "
   ++ Json.dquote ++ sid ++ Json.dquote ++ ", "
   ++ Json.dquote ++ "media" ++ Json.dquote ++ ": {"
   ++ Json.dquote ++ "payload" ++ Json.dquote ++ ": "
   ++ Json.dquote ++ Base64.b64encode audio ++ Json.dquote ++ "}}")%string.

(** A character [json.dumps] writes as it is. *)
Definition plain (c : ascii) : bool :=
  String.eqb (Json.escape_char c) (String c "").

End Lifecycle.

(** ** More concrete environments and frames *)

Module MoreSamples.
Import Py Effects MediaStream Samples.

(** A callback whose first call raises [e] and whose later calls return. *)
Definition callback_raises_once (e : exn) (cb : callback) (n : nat)
    (audio : list byte) : option exn :=
  match n with
  | 0 => Some e
  | S _ => None
  end.

Definition queue_full : exn := Exn (OtherException "Full") "".

(** An event the bridge does not know. *)
Definition mark_event : json :=
  JObj [ ("event", JStr "mark"); ("mark", JObj [("name", JStr "m1")]) ].

(** A parser that knows the frames of [frames]: the text of each is parsed
    to it, as [json.loads] does, and no other text is asked for. *)
Fixpoint loads_among (frames : list json) (message : string) : result json :=
  match frames with
  | [] => Raise (Exn JSONDecodeError "Expecting value: line 1 column 1 (char 0)")
  | data :: rest =>
      if String.eqb message (text_of data) then Ok data
      else loads_among rest message
  end.

(** The frames of a short call. *)
Definition short_call : list json :=
  [ start_event "S1"; media_event "AAA="; mark_event; media_event "BBB=" ].

(** A tool request whose body is a JSON list. *)
Definition list_arguments : json := JArr [JStr "Paris"].

Definition list_request : Main.Request :=
  {| Main.headers := [("content-type", "application/json")];
     Main.body := text_of list_arguments |}.

(** A handler that fails the way the parser does. *)
Definition decoding_handler (tool_name : string) (arguments : json)
  : result (json * json) :=
  Raise (Exn JSONDecodeError "Expecting value: line 1 column 1 (char 0)").

(** An agent session whose calls all return and which installs the
    callback 7 while it starts. *)
Definition session_returns (c : session_call) : option exn := None.

Definition session_installs (c : session_call) (w : world) : world :=
  match c with
  | start_session => final (TwilioAudioInterface.start 7 w)
  | end_session => final (TwilioAudioInterface.stop w)
  | _ => w
  end.

(** An agent session that cannot be made. *)
Definition no_agent : exn := Exn ValueError "agent_id is required".

Definition construction_fails (c : session_call) : option exn :=
  match c with
  | Conversation => Some no_agent
  | _ => None
  end.

End MoreSamples.

(** * Base64 round trip *)

Module Base64Facts.
Import Py Base64 Base64Spec.

Lemma byte_of_to_N (b : byte) : byte_of_N (Byte.to_N b) = b.
Proof.
  unfold byte_of_N.
  pose proof (Byte.to_N_bounded b).
  rewrite N.mod_small by lia.
  now rewrite Byte.of_to_N.
Qed.

Lemma in_all_bytes (b : byte) : In b all_bytes.
Proof.
  unfold all_bytes.
  rewrite <- (byte_of_to_N b).
  apply in_map, in_map_iff.
  exists (N.to_nat (Byte.to_N b)); split.
  - apply N2Nat.id.
  - apply in_seq. pose proof (Byte.to_N_bounded b). lia.
Qed.

Lemma forall_byte (P : byte -> bool) :
  forallb P all_bytes = true -> forall b, P b = true.
Proof.
  intros H b. rewrite forallb_forall in H. apply H, in_all_bytes.
Qed.

Lemma forall_byte2 (P : byte -> byte -> bool) :
  forallb (fun a => forallb (P a) all_bytes) all_bytes = true ->
  forall a b, P a b = true.
Proof.
  intros H a b.
  apply (forall_byte (P a)).
  apply (forall_byte (fun a => forallb (P a) all_bytes) H).
Qed.

(** The two tables are inverse on six-bit values, and no character of the
    alphabet is the pad. *)
Lemma table_roundtrip (n : N) :
  (n < 64)%N ->
  Ascii.eqb (table_b2a_base64 n) BASE64_PAD = false
  /\ is_ascii (table_b2a_base64 n) = true
  /\ table_a2b_base64 (table_b2a_base64 n) = Some n.
Proof.
  intros Hn.
  assert (Hall : forallb table_ok (map N.of_nat (seq 0 64)) = true)
    by (vm_compute; reflexivity).
  rewrite forallb_forall in Hall.
  assert (Hin : In n (map N.of_nat (seq 0 64))).
  { apply in_map_iff. exists (N.to_nat n). split.
    - apply N2Nat.id.
    - apply in_seq. lia. }
  specialize (Hall n Hin). unfold table_ok in Hall.
  apply andb_true_iff in Hall. destruct Hall as [Hall Htab].
  apply andb_true_iff in Hall. destruct Hall as [Hpad Hasc].
  repeat split.
  - now apply negb_true_iff.
  - exact Hasc.
  - destruct (table_a2b_base64 (table_b2a_base64 n)) as [m|]; [|discriminate].
    apply N.eqb_eq in Htab. now subst.
Qed.

(** One character of the alphabet moves the decoder on by one position. *)
Lemma a2b_loop_char (n : N) rest quad_pos leftchar pads out :
  (n < 64)%N ->
  a2b_loop (table_b2a_base64 n :: rest) quad_pos leftchar pads out =
  match quad_pos with
  | 0 => a2b_loop rest 1 n 0 out
  | 1 =>
      a2b_loop rest 2 (N.land n 15) 0
        (out ++ [byte_of_N (N.lor (N.shiftl leftchar 2) (N.shiftr n 4))])
  | 2 =>
      a2b_loop rest 3 (N.land n 3) 0
        (out ++ [byte_of_N (N.lor (N.shiftl leftchar 4) (N.shiftr n 2))])
  | _ =>
      a2b_loop rest 0 0 0
        (out ++ [byte_of_N (N.lor (N.shiftl leftchar 6) n)])
  end%nat.
Proof.
  intros Hn. destruct (table_roundtrip Hn) as (Hpad & _ & Htab).
  cbn [a2b_loop]. now rewrite Hpad, Htab.
Qed.

Lemma sextet_bounds (a b : byte) :
  (sextet0 a < 64 /\ sextet1 a b < 64 /\ sextet2 a b < 64 /\ sextet3 a < 64
   /\ N.shiftl (N.land (Byte.to_N a) 3) 4 < 64
   /\ N.shiftl (N.land (Byte.to_N a) 15) 2 < 64)%N.
Proof.
  pose proof (forall_byte2 sextets_bounded) as H.
  specialize (H ltac:(vm_compute; reflexivity) a b).
  unfold sextets_bounded in H.
  repeat (apply andb_true_iff in H; destruct H as [H ?]).
  repeat match goal with
         | Hx : (_ <? _)%N = true |- _ => apply N.ltb_lt in Hx
         end.
  tauto.
Qed.

(** The bit arithmetic of the decoder undoes that of the encoder. *)
Lemma sextets_decode (a b : byte) :
  byte_of_N (N.lor (N.shiftl (sextet0 a) 2) (N.shiftr (sextet1 a b) 4)) = a
  /\ N.land (sextet1 a b) 15 = N.shiftr (Byte.to_N b) 4
  /\ byte_of_N (N.lor (N.shiftl (N.shiftr (Byte.to_N a) 4) 4)
                  (N.shiftr (sextet2 a b) 2)) = a
  /\ N.land (sextet2 a b) 3 = N.shiftr (Byte.to_N b) 6
  /\ byte_of_N (N.lor (N.shiftl (N.shiftr (Byte.to_N a) 6) 6) (sextet3 a)) = a
  /\ byte_of_N (N.lor (N.shiftl (sextet0 a) 2)
                  (N.shiftr (N.shiftl (N.land (Byte.to_N a) 3) 4) 4)) = a
  /\ byte_of_N (N.lor (N.shiftl (N.shiftr (Byte.to_N a) 4) 4)
                  (N.shiftr (N.shiftl (N.land (Byte.to_N a) 15) 2) 2)) = a.
Proof.
  pose proof (forall_byte2 sextets_inverted) as H.
  specialize (H ltac:(vm_compute; reflexivity) a b).
  unfold sextets_inverted in H.
  repeat (apply andb_true_iff in H; destruct H as [H ?]).
  repeat match goal with
         | Hx : Byte.eqb _ _ = true |- _ => apply Byte.byte_dec_bl in Hx
         | Hx : N.eqb _ _ = true |- _ => apply N.eqb_eq in Hx
         end.
  tauto.
Qed.

(** A full group of three bytes is decoded to itself and leaves the decoder
    at the start of a quad. *)
Lemma a2b_loop_group (a b c : byte) rest out :
  a2b_loop
    (table_b2a_base64 (sextet0 a) :: table_b2a_base64 (sextet1 a b)
     :: table_b2a_base64 (sextet2 b c) :: table_b2a_base64 (sextet3 c) :: rest)
    0 0 0 out
  = a2b_loop rest 0 0 0 (out ++ [a; b; c]).
Proof.
  destruct (sextet_bounds a b) as (H0 & H1 & _).
  destruct (sextet_bounds b c) as (_ & _ & H2 & _).
  destruct (sextet_bounds c c) as (_ & _ & _ & H3 & _).
  rewrite (a2b_loop_char _ _ _ _ _ H0).
  rewrite (a2b_loop_char _ _ _ _ _ H1).
  rewrite (a2b_loop_char _ _ _ _ _ H2).
  rewrite (a2b_loop_char _ _ _ _ _ H3).
  destruct (sextets_decode a b) as (E0 & E1 & _).
  destruct (sextets_decode b c) as (_ & _ & E2 & E3 & _).
  destruct (sextets_decode c c) as (_ & _ & _ & _ & E4 & _).
  rewrite E0, E1, E2, E3, E4.
  now rewrite <- !app_assoc.
Qed.

Lemma a2b_loop_b2a_le (n : nat) :
  forall data out,
    List.length data <= n ->
    a2b_loop (b2a_base64 data) 0 0 0 out = Ok (out ++ data).
Proof.
  induction n as [|n IH]; intros data out Hlen.
  - destruct data; [|simpl in Hlen; lia]. simpl. now rewrite app_nil_r.
  - destruct data as [|a [|b [|c rest]]].
    + simpl. now rewrite app_nil_r.
    + cbn [b2a_base64].
      destruct (sextet_bounds a a) as (H0 & _ & _ & _ & H1 & _).
      rewrite (a2b_loop_char _ _ _ _ _ H0).
      rewrite (a2b_loop_char _ _ _ _ _ H1).
      destruct (sextets_decode a a) as (_ & _ & _ & _ & _ & E & _).
      fold (sextet0 a). rewrite E. reflexivity.
    + cbn [b2a_base64].
      destruct (sextet_bounds a b) as (H0 & H1 & _).
      destruct (sextet_bounds b b) as (_ & _ & _ & _ & _ & H2).
      rewrite (a2b_loop_char _ _ _ _ _ H0).
      fold (sextet1 a b).
      rewrite (a2b_loop_char _ _ _ _ _ H1).
      rewrite (a2b_loop_char _ _ _ _ _ H2).
      destruct (sextets_decode a b) as (E0 & E1 & _).
      destruct (sextets_decode b b) as (_ & _ & _ & _ & _ & _ & E2).
      fold (sextet0 a). rewrite E0, E1, E2.
      cbn. now rewrite <- app_assoc.
    + cbn [b2a_base64].
      fold (sextet0 a) (sextet1 a b) (sextet2 b c) (sextet3 c).
      rewrite a2b_loop_group.
      rewrite IH by (simpl in Hlen |- *; lia).
      now rewrite <- app_assoc.
Qed.

Lemma a2b_loop_b2a (data out : list byte) :
  a2b_loop (b2a_base64 data) 0 0 0 out = Ok (out ++ data).
Proof. now apply (a2b_loop_b2a_le (n := List.length data)). Qed.

Lemma table_b2a_is_ascii (n : N) :
  (n < 64)%N -> is_ascii (table_b2a_base64 n) = true.
Proof. intros Hn. now destruct (table_roundtrip Hn) as (_ & H & _). Qed.

(** The encoder writes ASCII only. *)
Lemma b2a_base64_ascii_le (n : nat) :
  forall data,
    List.length data <= n -> forallb is_ascii (b2a_base64 data) = true.
Proof.
  induction n as [|n IH]; intros data Hlen.
  - destruct data; [reflexivity | simpl in Hlen; lia].
  - destruct data as [|a [|b [|c rest]]].
    + reflexivity.
    + destruct (sextet_bounds a a) as (H0 & _ & _ & _ & H1 & _).
      cbn [b2a_base64 forallb].
      fold (sextet0 a).
      rewrite (table_b2a_is_ascii H0), (table_b2a_is_ascii H1).
      reflexivity.
    + destruct (sextet_bounds a b) as (H0 & H1 & _).
      destruct (sextet_bounds b b) as (_ & _ & _ & _ & _ & H2).
      cbn [b2a_base64 forallb].
      fold (sextet0 a) (sextet1 a b).
      rewrite (table_b2a_is_ascii H0), (table_b2a_is_ascii H1),
        (table_b2a_is_ascii H2).
      reflexivity.
    + destruct (sextet_bounds a b) as (H0 & H1 & _).
      destruct (sextet_bounds b c) as (_ & _ & H2 & _).
      destruct (sextet_bounds c c) as (_ & _ & _ & H3 & _).
      cbn [b2a_base64 forallb].
      fold (sextet0 a) (sextet1 a b) (sextet2 b c) (sextet3 c).
      rewrite (table_b2a_is_ascii H0), (table_b2a_is_ascii H1),
        (table_b2a_is_ascii H2), (table_b2a_is_ascii H3).
      apply IH. simpl in Hlen. lia.
Qed.

(** [base64.b64decode] undoes [base64.b64encode]. *)
Lemma b64decode_b64encode (data : list byte) :
  b64decode (JStr (b64encode data)) = Ok data.
Proof.
  unfold b64decode, b64encode.
  rewrite list_ascii_of_string_of_list_ascii.
  rewrite (b2a_base64_ascii_le (n := List.length data)) by lia.
  unfold a2b_base64. now rewrite a2b_loop_b2a.
Qed.

End Base64Facts.

(** * The outbound path: [output] and [interrupt] *)

Module OutboundFacts.
Import Py Effects TwilioAudioInterface Trace.

(** Unfolds the computation down to the environment's answers. *)
Ltac run :=
  unfold TwilioAudioInterface.output, TwilioAudioInterface.interrupt,
    TwilioAudioInterface.send_audio_to_twilio,
    TwilioAudioInterface.send_clear_message_to_twilio,
    try_except, bind, get_stream_sid, read_application_state, send_text, print,
    ret, outcome, final, emitted;
  cbn -[Json.dumps audio_delta clear_message].

Section Outbound.


Variable application_state : nat -> WebSocketState.
Variable send_text_raises : nat -> string -> option exn.
Variable float_repr : SpecFloat.spec_float -> string.

#[local] Abbreviation output :=
  (output application_state send_text_raises float_repr).
#[local] Abbreviation interrupt :=
  (interrupt application_state send_text_raises float_repr).
#[local] Abbreviation send_audio_to_twilio :=
  (send_audio_to_twilio application_state send_text_raises float_repr).
#[local] Abbreviation send_clear_message_to_twilio :=
  (send_clear_message_to_twilio application_state send_text_raises float_repr).

(** Splits on the next answer of the environment the result depends on. *)
Ltac answer :=
  match goal with
  | |- context [truthy ?x] => destruct (truthy x) eqn:?
  | |- context [application_state ?n] => destruct (application_state n) eqn:?
  | |- context [send_text_raises ?n ?t] =>
      destruct (send_text_raises n t) eqn:?
  | |- context [is_WebSocketDisconnect ?e] =>
      destruct (is_WebSocketDisconnect e) eqn:?
  | |- context [is_RuntimeError ?e] => destruct (is_RuntimeError e) eqn:?
  end;
  cbn -[Json.dumps audio_delta clear_message] in *.

(** C4.  While the stream identifier is unset (or otherwise false), a call
    of [output] or of [interrupt] writes nothing to the socket, prints
    exactly one entry, returns normally and leaves the bridge as it was. *)
Theorem unset_stream_sid_is_a_logged_no_op (audio : list byte) (w : world) :
  truthy (stream_sid w) = false ->
  output audio w = (Ok tt, w, [EvLog AudioNoStreamSid])
  /\ interrupt w = (Ok tt, w, [EvLog ClearNoStreamSid]).
Proof.
  intros Hsid. run. now rewrite Hsid.
Qed.

(** C8.  In every run of [send_audio_to_twilio] and of
    [send_clear_message_to_twilio], whatever the socket answers, each call
    of [send_text], the retry included, comes directly after a read of the
    socket state that saw [CONNECTED]; and after a read that saw any other
    state nothing is written any more and an entry is printed. *)
Theorem every_write_is_guarded (audio : list byte) (w : world) :
  sends_guarded false (emitted (send_audio_to_twilio audio w)) = true
  /\ not_open_skips (emitted (send_audio_to_twilio audio w)) = true
  /\ sends_guarded false (emitted (send_clear_message_to_twilio w)) = true
  /\ not_open_skips (emitted (send_clear_message_to_twilio w)) = true.
Proof.
  repeat split; run; repeat answer; reflexivity.
Qed.


End Outbound.

Import Samples.

Lemma unset_stream_sid_is_a_logged_no_op_witness :
  output always_connected never_raises no_floats ["000"%byte] init
  = (Ok tt, init, [EvLog AudioNoStreamSid])
  /\ interrupt always_connected never_raises no_floats init
     = (Ok tt, init, [EvLog ClearNoStreamSid]).
Proof.
  apply (unset_stream_sid_is_a_logged_no_op
           always_connected never_raises no_floats ["000"%byte] init).
  reflexivity.
Defined.



End OutboundFacts.

(** * The inbound path: [handle_twilio_message] *)

Module InboundFacts.
Import Py Effects TwilioAudioInterface Trace.

(** Unfolds a run of [handle_twilio_message] down to the lookups, the
    decoding and the callback's answers. *)
Ltac run :=
  unfold handle_twilio_message, handle_twilio_message_try,
    handle_twilio_message_retry, try_except, bind, lift, print, ret,
    get_input_callback, set_stream_sid, get_stream_sid, call_callback,
    outcome, final, emitted;
  cbn -[getitem Base64.b64decode].

Section Inbound.

Variable callback_raises : callback -> nat -> list byte -> option exn.

#[local] Abbreviation handle_twilio_message :=
  (handle_twilio_message callback_raises).

(** Splits on the next lookup or answer the result depends on. *)
Ltac answer :=
  match goal with
  | |- context [assoc ?k ?l] => destruct (assoc k l) eqn:?
  | |- context [eq_str ?v ?s] => destruct (eq_str v s) eqn:?
  | |- context [input_callback ?w] => destruct (input_callback w) eqn:?
  | |- context [getitem ?d ?k] => destruct (getitem d k) eqn:?
  | |- context [Base64.b64decode ?p] => destruct (Base64.b64decode p) eqn:?
  | |- context [callback_raises ?c ?n ?a] =>
      destruct (callback_raises c n a) eqn:?
  | |- context [is_KeyError ?e] => destruct (is_KeyError e) eqn:?
  end;
  cbn -[getitem Base64.b64decode] in *.

(** No exception leaves [handle_twilio_message], whatever [data] is. *)
Lemma handle_twilio_message_returns (data : json) (w : world) :
  outcome (handle_twilio_message data w) = Ok tt.
Proof.
  destruct data; run; repeat answer; try reflexivity; try discriminate.
Qed.

(** What one call does to the cached stream identifier. *)
Lemma handle_twilio_message_stream_sid (data : json) (w : world) :
  stream_sid (final (handle_twilio_message data w))
  = match carried_stream_sid data with
    | Some sid => sid
    | None => stream_sid w
    end.
Proof.
  destruct data; unfold carried_stream_sid, start_stream_sid; run;
    repeat answer; try reflexivity; try discriminate.
Qed.

(** The socket is not touched by the inbound path. *)
Lemma handle_twilio_message_socket (data : json) (w : world) :
  reads (final (handle_twilio_message data w)) = reads w
  /\ sends (final (handle_twilio_message data w)) = sends w
  /\ sends_of (emitted (handle_twilio_message data w)) = [].
Proof.
  destruct data; run; repeat answer; repeat split; try reflexivity;
    try discriminate.
Qed.

(** Events that are no start events carry no stream identifier. *)
Lemma last_stream_sid_quiet (events : list json) (sid : json) :
  forallb (fun data => negb (is_start_event data)) events = true ->
  last_stream_sid events sid = sid.
Proof.
  unfold last_stream_sid.
  induction events as [|data rest IH]; intros Hquiet; [reflexivity|].
  cbn [forallb fold_left] in *.
  apply andb_true_iff in Hquiet. destruct Hquiet as [Hdata Hrest].
  assert (Hnone : carried_stream_sid data = None).
  { unfold carried_stream_sid, is_start_event in *.
    destruct (get data "event") as [event_type|]; [|reflexivity].
    apply negb_true_iff in Hdata. now rewrite Hdata. }
  rewrite Hnone. now apply IH.
Qed.

#[local] Abbreviation handle_twilio_messages :=
  (handle_twilio_messages callback_raises).

Lemma handle_twilio_messages_cons (data : json) (rest : list json) (w : world) :
  handle_twilio_messages (data :: rest) w
  = (outcome (handle_twilio_messages rest (final (handle_twilio_message data w))),
     final (handle_twilio_messages rest (final (handle_twilio_message data w))),
     emitted (handle_twilio_message data w)
     ++ emitted (handle_twilio_messages rest (final (handle_twilio_message data w)))).
Proof.
  pose proof (handle_twilio_message_returns data w) as Hok.
  cbn [Trace.handle_twilio_messages]. unfold bind.
  destruct (handle_twilio_message data w) as [[r w1] evs1].
  unfold outcome, final, emitted in *. cbn in *. subst r.
  now destruct (handle_twilio_messages rest w1) as [[r2 w2] evs2].
Qed.

Lemma handle_twilio_messages_stream_sid (events : list json) (w : world) :
  outcome (handle_twilio_messages events w) = Ok tt
  /\ stream_sid (final (handle_twilio_messages events w))
     = last_stream_sid events (stream_sid w).
Proof.
  revert w. induction events as [|data rest IH]; intros w.
  - split; reflexivity.
  - rewrite handle_twilio_messages_cons.
    unfold outcome, final in *. cbn [fst snd].
    destruct (IH (snd (fst (handle_twilio_message data w)))) as [Hok Hsid].
    split; [exact Hok|].
    rewrite Hsid. unfold last_stream_sid. cbn [fold_left].
    f_equal. apply handle_twilio_message_stream_sid.
Qed.

(** C2, as the code has it.  Every start event that carries a nested
    stream identifier sets the cached identifier again: after a sequence
    of events it is the identifier of the last such event, and the initial
    one if there is none.  No other event changes it, and no event makes
    [handle_twilio_message] raise. *)
Theorem stream_sid_is_that_of_the_last_start (events : list json) (w : world) :
  outcome (handle_twilio_messages events w) = Ok tt
  /\ stream_sid (final (handle_twilio_messages events w))
     = last_stream_sid events (stream_sid w)
  /\ (forallb (fun data => negb (is_start_event data)) events = true ->
      stream_sid (final (handle_twilio_messages events w)) = stream_sid w).
Proof.
  destruct (handle_twilio_messages_stream_sid events w) as [Hok Hsid].
  repeat split; [exact Hok | exact Hsid |].
  intros Hquiet. rewrite Hsid. now apply last_stream_sid_quiet.
Qed.





End Inbound.

Import Samples.

(** C2 fails as stated: a second start event sets the identifier again. *)
Lemma second_start_replaces_stream_sid :
  stream_sid
    (final
       (Trace.handle_twilio_messages callback_returns [start_event "S1"] init))
  = JStr "S1"
  /\ stream_sid
       (final
          (Trace.handle_twilio_messages callback_returns
             [start_event "S1"; start_event "S2"] init))
     = JStr "S2"
  /\ JStr "S2" <> JStr "S1".
Proof.
  repeat split; try reflexivity. discriminate.
Qed.

End InboundFacts.

(** * The read loop of [handle_media_stream] *)

Module OrchestratorFacts.
Import Py Effects TwilioAudioInterface Main Trace.

Section ReadLoop.

Variable json_loads : string -> result json.
Variable callback_raises : callback -> nat -> list byte -> option exn.

#[local] Abbreviation handle_twilio_message :=
  (handle_twilio_message callback_raises).
#[local] Abbreviation handle_media_stream_message :=
  (handle_media_stream_message json_loads callback_raises).
#[local] Abbreviation handle_media_stream_loop :=
  (handle_media_stream_loop json_loads callback_raises).

(** An empty frame is skipped. *)
Lemma message_empty (w : world) :
  handle_media_stream_message "" w = (Ok tt, w, []).
Proof. reflexivity. Qed.

(** A frame that parses is handed to [handle_twilio_message] once, and
    the [except] clause of the loop is not entered. *)
Lemma message_parsed (message : string) (data : json) (w : world) :
  String.eqb message "" = false ->
  json_loads message = Ok data ->
  handle_media_stream_message message w = handle_twilio_message data w.
Proof.
  intros Hne Hdata.
  pose proof (InboundFacts.handle_twilio_message_returns callback_raises data w)
    as Hok.
  unfold Main.handle_media_stream_message. rewrite Hne.
  unfold try_except, bind, lift. rewrite Hdata.
  destruct (handle_twilio_message data w) as [[r w1] evs].
  unfold outcome in Hok. cbn in *. now subst r.
Qed.

(** A frame that does not parse is parsed once more, and given up. *)
Lemma message_unparsed (message : string) (e : exn) (w : world) :
  String.eqb message "" = false ->
  json_loads message = Raise e ->
  handle_media_stream_message message w
  = (Ok tt, w,
     [ EvLog (LoopError e); EvLog (MessageContent message);
       EvLog LoopAttemptingRetry; EvLog (LoopRetryFailed e);
       EvLog (Traceback e) ]).
Proof.
  intros Hne Hdata.
  unfold Main.handle_media_stream_message. rewrite Hne.
  unfold try_except, bind, lift, print. now rewrite Hdata.
Qed.

(** No frame makes the body of the loop raise. *)
Lemma message_returns (message : string) (w : world) :
  outcome (handle_media_stream_message message w) = Ok tt.
Proof.
  destruct (String.eqb message "") eqn:Hne.
  - apply String.eqb_eq in Hne. now subst.
  - destruct (json_loads message) as [data|e] eqn:Hdata.
    + rewrite (message_parsed w Hne Hdata).
      apply InboundFacts.handle_twilio_message_returns.
    + now rewrite (message_unparsed w Hne Hdata).
Qed.

(** The loop goes on with the next frame from the world the frame left. *)
Lemma loop_cons (message : string) (rest : list string) (w : world) :
  handle_media_stream_loop (message :: rest) w
  = (outcome (handle_media_stream_loop rest
                (final (handle_media_stream_message message w))),
     final (handle_media_stream_loop rest
              (final (handle_media_stream_message message w))),
     emitted (handle_media_stream_message message w)
     ++ emitted (handle_media_stream_loop rest
                   (final (handle_media_stream_message message w)))).
Proof.
  pose proof (message_returns message w) as Hok.
  cbn [Main.handle_media_stream_loop]. unfold bind.
  destruct (handle_media_stream_message message w) as [[r w1] evs1].
  unfold outcome, final, emitted in *. cbn in *. subst r.
  now destruct (handle_media_stream_loop rest w1) as [[r2 w2] evs2].
Qed.

(** The loop ends only when the frames do. *)
Lemma loop_returns (messages : list string) (w : world) :
  outcome (handle_media_stream_loop messages w) = Ok tt.
Proof.
  revert w. induction messages as [|message rest IH]; intros w.
  - reflexivity.
  - rewrite loop_cons. apply IH.
Qed.




End ReadLoop.

End OrchestratorFacts.

(** * The tool endpoint *)

Module ToolFacts.
Import Py Effects Main Trace.

Section Endpoint.

Variable json_loads : string -> result json.
Variable handle_function_call : string -> json -> result (json * json).

#[local] Abbreviation handle_tool_call :=
  (handle_tool_call json_loads handle_function_call).

Lemma print_each_returns {A} (f : A -> log_entry) (xs : list A) (w : world) :
  print_each f xs w = (Ok tt, w, map (fun x => EvLog (f x)) xs).
Proof.
  induction xs as [|x rest IH]; [reflexivity|].
  cbn [print_each map]. unfold bind, print. now rewrite IH.
Qed.

(** C9.  The endpoint returns a response body for every request.  It is
    the handler's result when the handler returns one; it is the object
    with [success] false and an [error] when the body is not JSON, when the
    handler raises, and when the handler returns no result, with the
    handler's error in the last case. *)
Theorem tool_call_always_answers
    (tool_name : string) (request : Request) (w : world)
    (e : exn) (request_body : json) (kvs : list (string * json))
    (result_ error : json) :
  (exists response,
     outcome (handle_tool_call tool_name request w) = Ok response)
  /\ (json_loads (body request) = Raise e ->
      exists error_msg,
        outcome (handle_tool_call tool_name request w)
        = Ok (error_response (JStr error_msg)))
  /\ (json_loads (body request) = Ok request_body ->
      handle_function_call tool_name request_body = Raise e ->
      exists error_msg,
        outcome (handle_tool_call tool_name request w)
        = Ok (error_response (JStr error_msg)))
  /\ (json_loads (body request) = Ok request_body ->
      items request_body = Ok kvs ->
      handle_function_call tool_name request_body = Ok (result_, error) ->
      outcome (handle_tool_call tool_name request w)
      = Ok (if is_None result_ then error_response error else result_)).
Proof.
  unfold Main.handle_tool_call, request_json, try_except, bind, lift, print,
    ret, outcome.
  split; [|split; [|split]].
  - destruct (json_loads (body request)) as [rb|e0]; cbn.
    + destruct (items rb) as [kv|e1]; cbn.
      * rewrite print_each_returns.
        destruct (handle_function_call tool_name rb) as [[r er]|e2]; cbn.
        -- destruct (is_None r); cbn; eexists; reflexivity.
        -- destruct (is_JSONDecodeError e2); cbn; eexists; reflexivity.
      * destruct (is_JSONDecodeError e1); cbn; eexists; reflexivity.
    + destruct (is_JSONDecodeError e0); cbn; eexists; reflexivity.
  - intros Hbody. rewrite Hbody. cbn.
    destruct (is_JSONDecodeError e); cbn; eexists; reflexivity.
  - intros Hbody Hfail. rewrite Hbody. cbn.
    destruct (items request_body) as [kv|e1]; cbn.
    + rewrite print_each_returns. rewrite Hfail. cbn.
      destruct (is_JSONDecodeError e); cbn; eexists; reflexivity.
    + destruct (is_JSONDecodeError e1); cbn; eexists; reflexivity.
  - intros Hbody Hitems Hres. rewrite Hbody. cbn. rewrite Hitems. cbn.
    rewrite print_each_returns. rewrite Hres. cbn.
    destruct (is_None result_); reflexivity.
Qed.

End Endpoint.

End ToolFacts.

(** * The bridge end to end *)

Module EndToEnd.
Import Py Effects TwilioAudioInterface Main Trace.

Section Scenarios.

Variable application_state : nat -> WebSocketState.
Variable send_text_raises : nat -> string -> option exn.
Variable callback_raises : callback -> nat -> list byte -> option exn.
Variable float_repr : SpecFloat.spec_float -> string.
Variable json_loads : string -> result json.

#[local] Abbreviation interrupt :=
  (interrupt application_state send_text_raises float_repr).
#[local] Abbreviation handle_twilio_message :=
  (handle_twilio_message callback_raises).
#[local] Abbreviation handle_twilio_messages :=
  (handle_twilio_messages callback_raises).

(** The media branch hands the decoded audio of an outbound frame to the
    installed callback. *)
Lemma outbound_frame_is_delivered
    (sid : json) (audio : list byte) (cb : callback) (w : world) :
  exists rest,
    emitted (handle_twilio_message (audio_delta sid audio) (final (start cb w)))
    = [ EvLog (Handling (JStr "media"));
        EvLog (ReceivedAudio (List.length audio));
        EvCall cb audio ] ++ rest.
Proof.
  pose proof (Base64Facts.b64decode_b64encode audio) as Hround.
  unfold TwilioAudioInterface.handle_twilio_message,
    handle_twilio_message_try, handle_twilio_message_retry, start,
    set_input_callback, try_except, bind, lift, print, ret,
    get_input_callback, call_callback, audio_delta, emitted, final.
  cbn -[Base64.b64decode Base64.b64encode].
  rewrite Hround. cbn -[Base64.b64decode Base64.b64encode].
  destruct (callback_raises cb (calls w) audio) as [e|];
    cbn -[Base64.b64decode Base64.b64encode].
  - destruct (is_KeyError e); cbn -[Base64.b64decode Base64.b64encode].
    + eexists; reflexivity.
    + try rewrite Hround. cbn -[Base64.b64decode Base64.b64encode].
      destruct (callback_raises cb (S (calls w)) audio);
        cbn; eexists; reflexivity.
  - exists []. reflexivity.
Qed.

(** C3.  Base64 decoding undoes base64 encoding on every byte sequence,
    the empty one included: the payload of the frame [output] builds for
    [audio] decodes to [audio].  When that frame comes in as a media event
    while a callback is installed, the callback is called with exactly
    [audio]; so it is when the text [output] writes is read by the loop,
    provided [json.loads] parses that text to the dict it was written
    from. *)
Theorem media_payload_round_trip
    (sid : json) (audio : list byte) (cb : callback) (w : world) :
  Base64.b64decode (JStr (Base64.b64encode audio)) = Ok audio
  /\ media_audio_data (audio_delta sid audio) = Ok audio
  /\ (exists rest,
        emitted
          (handle_twilio_message (audio_delta sid audio) (final (start cb w)))
        = [ EvLog (Handling (JStr "media"));
            EvLog (ReceivedAudio (List.length audio));
            EvCall cb audio ] ++ rest)
  /\ (json_loads (frame_text float_repr sid (Media audio))
      = Ok (audio_delta sid audio) ->
      exists rest,
        emitted
          (handle_media_stream_message json_loads callback_raises
             (frame_text float_repr sid (Media audio)) (final (start cb w)))
        = [ EvLog (Handling (JStr "media"));
            EvLog (ReceivedAudio (List.length audio));
            EvCall cb audio ] ++ rest).
Proof.
  pose proof (Base64Facts.b64decode_b64encode audio) as Hround.
  split; [exact Hround|].
  split.
  { unfold media_audio_data, audio_delta.
    cbn -[Base64.b64decode Base64.b64encode]. exact Hround. }
  split; [apply outbound_frame_is_delivered|].
  intros Hparsed.
  rewrite (@OrchestratorFacts.message_parsed json_loads callback_raises
             (frame_text float_repr sid (Media audio)) (audio_delta sid audio)
             (final (start cb w)) eq_refl Hparsed).
  apply outbound_frame_is_delivered.
Qed.

Lemma dumps_clear_S1 :
  Json.dumps float_repr (clear_message (JStr "S1")) = clear_S1_text.
Proof. reflexivity. Qed.

(** C7.  Before any start event has been processed the stream identifier
    is unset, and [interrupt] writes nothing and prints one warning.  After
    a start event with the stream identifier S1, with the socket seen
    [CONNECTED] and the write accepted, [interrupt] writes exactly one frame,
    whose text is the clear frame of S1. *)
Theorem interrupt_before_and_after_start
    (quiet : list json) (w0 : world) (data : json) (w : world) :
  stream_sid w0 = JNull ->
  forallb (fun d => negb (is_start_event d)) quiet = true ->
  is_start_event data = true ->
  start_stream_sid data = Ok (JStr "S1") ->
  application_state (reads w) = CONNECTED ->
  send_text_raises (sends w) clear_S1_text = None ->
  emitted (interrupt (final (handle_twilio_messages quiet w0)))
  = [ EvLog ClearNoStreamSid ]
  /\ emitted (interrupt (final (handle_twilio_message data w)))
     = [ EvState CONNECTED; EvSend clear_S1_text; EvLog SentClear ].
Proof.
  intros Hunset Hquiet Hstart Hsid Hopen Hsend.
  split.
  - destruct (InboundFacts.handle_twilio_messages_stream_sid
                callback_raises quiet w0) as [_ Hlast].
    rewrite (InboundFacts.last_stream_sid_quiet quiet (stream_sid w0) Hquiet),
      Hunset in Hlast.
    remember (final (handle_twilio_messages quiet w0)) as w1 eqn:Hw1.
    clear Hw1. OutboundFacts.run. now rewrite Hlast.
  - pose proof (InboundFacts.handle_twilio_message_stream_sid
                  callback_raises data w) as Hset.
    destruct (InboundFacts.handle_twilio_message_socket callback_raises data w)
      as (Hreads & Hsends & _).
    assert (Hcarried : carried_stream_sid data = Some (JStr "S1")).
    { unfold carried_stream_sid, is_start_event in *.
      destruct (get data "event") as [event_type|]; [|discriminate].
      now rewrite Hstart, Hsid. }
    rewrite Hcarried in Hset.
    remember (final (handle_twilio_message data w)) as w1 eqn:Hw1.
    clear Hw1. OutboundFacts.run.
    rewrite Hset. cbn -[Json.dumps clear_message].
    rewrite Hreads, Hopen. cbn -[Json.dumps clear_message].
    rewrite dumps_clear_S1, Hsends, Hsend. reflexivity.
Qed.

End Scenarios.

End EndToEnd.

(** * The theorems at concrete inputs *)

Module Concrete.
Import Py Effects TwilioAudioInterface Main Trace Samples.

(** Events that are no start events leave the identifier of S1 alone. *)
Lemma stream_sid_is_that_of_the_last_start_witness :
  stream_sid
    (final
       (handle_twilio_messages callback_returns
          [media_event "AAA="; media_without_payload] streaming_S1))
  = JStr "S1".
Proof.
  apply (InboundFacts.stream_sid_is_that_of_the_last_start callback_returns
           [media_event "AAA="; media_without_payload] streaming_S1).
  reflexivity.
Defined.





(** The text written for one byte of audio, read back by the loop. *)
Lemma media_payload_round_trip_witness :
  exists rest,
    emitted
      (handle_media_stream_message
         (loads_only (audio_delta (JStr "S1") ["000"%byte])) callback_returns
         (frame_text no_floats (JStr "S1") (Media ["000"%byte]))
         (final (start 7 init)))
    = [ EvLog (Handling (JStr "media"));
        EvLog (ReceivedAudio 1);
        EvCall 7 ["000"%byte] ] ++ rest.
Proof.
  destruct (EndToEnd.media_payload_round_trip callback_returns no_floats
              (loads_only (audio_delta (JStr "S1") ["000"%byte]))
              (JStr "S1") ["000"%byte] 7 init) as (_ & _ & _ & Hwire).
  apply Hwire. reflexivity.
Defined.

(** [interrupt] before and after the start event of S1. *)
Lemma interrupt_before_and_after_start_witness :
  emitted
    (interrupt always_connected never_raises no_floats
       (final
          (handle_twilio_messages callback_returns [media_event "AAA="] init)))
  = [ EvLog ClearNoStreamSid ]
  /\ emitted
       (interrupt always_connected never_raises no_floats
          (final (handle_twilio_message callback_returns (start_event "S1") init)))
     = [ EvState CONNECTED; EvSend clear_S1_text; EvLog SentClear ].
Proof.
  apply (@EndToEnd.interrupt_before_and_after_start always_connected
           never_raises callback_returns no_floats
           [media_event "AAA="] init (start_event "S1") init);
    reflexivity.
Defined.

(** The endpoint on a body that is cut off, with a handler that raises,
    with one that reports an error and with one that answers. *)
Lemma tool_call_always_answers_witness :
  (exists error_msg,
     outcome
       (handle_tool_call (loads_only weather_arguments) answering_handler
          "get_weather" cut_off_request init)
     = Ok (error_response (JStr error_msg)))
  /\ (exists error_msg,
        outcome
          (handle_tool_call (loads_only weather_arguments) raising_handler
             "get_weather" weather_request init)
        = Ok (error_response (JStr error_msg)))
  /\ outcome
       (handle_tool_call (loads_only weather_arguments) refusing_handler
          "get_weather" weather_request init)
     = Ok (error_response (JStr "Unknown function"))
  /\ outcome
       (handle_tool_call (loads_only weather_arguments) answering_handler
          "get_weather" weather_request init)
     = Ok weather_report.
Proof.
  split; [|split; [|split]].
  - destruct (ToolFacts.tool_call_always_answers
                (loads_only weather_arguments) answering_handler
                "get_weather" cut_off_request init
                (Exn JSONDecodeError "Expecting value: line 1 column 1 (char 0)")
                JNull [] JNull JNull) as (_ & Hbody & _).
    apply Hbody. reflexivity.
  - destruct (ToolFacts.tool_call_always_answers
                (loads_only weather_arguments) raising_handler
                "get_weather" weather_request init
                (Exn ValueError "bad arguments")
                weather_arguments [] JNull JNull) as (_ & _ & Hraised & _).
    apply Hraised; reflexivity.
  - destruct (ToolFacts.tool_call_always_answers
                (loads_only weather_arguments) refusing_handler
                "get_weather" weather_request init
                (Exn ValueError "bad arguments")
                weather_arguments [("city", JStr "Paris")]
                JNull (JStr "Unknown function")) as (_ & _ & _ & Hreturned).
    apply Hreturned; reflexivity.
  - destruct (ToolFacts.tool_call_always_answers
                (loads_only weather_arguments) answering_handler
                "get_weather" weather_request init
                (Exn ValueError "bad arguments")
                weather_arguments [("city", JStr "Paris")]
                weather_report JNull) as (_ & _ & _ & Hreturned).
    apply Hreturned; reflexivity.
Defined.


End Concrete.

(** * More about the bridge: what each event does, and what is left alone *)

Module BridgeFacts.
Import Py Effects TwilioAudioInterface Main Trace Lifecycle.

(** Splits on the next lookup or answer a run of the inbound path depends
    on; [cbr] is the callback's behaviour. *)
Ltac inbound_answer cbr :=
  match goal with
  | |- context [assoc ?k ?l] => destruct (assoc k l) eqn:?
  | |- context [eq_str ?v ?s] => destruct (eq_str v s) eqn:?
  | |- context [input_callback ?w] =>
      is_var w; destruct (input_callback w) eqn:?
  | |- context [match ?x with Some _ => _ | None => _ end] =>
      is_var x; destruct x
  | |- context [getitem ?d ?k] => destruct (getitem d k) eqn:?
  | |- context [Base64.b64decode ?p] => destruct (Base64.b64decode p) eqn:?
  | |- context [cbr ?c ?n ?a] => destruct (cbr c n a) eqn:?
  | |- context [is_KeyError ?e] => destruct (is_KeyError e) eqn:?
  end;
  cbn -[getitem Base64.b64decode] in *.

Lemma eq_str_true (v : json) (s : string) : eq_str v s = true -> v = JStr s.
Proof.
  destruct v; cbn; try discriminate.
  intros H. apply String.eqb_eq in H. now subst.
Qed.

Section Inbound.

Variable callback_raises : callback -> nat -> list byte -> option exn.

#[local] Abbreviation handle_twilio_message :=
  (handle_twilio_message callback_raises).

(** The event type of a media event. *)
Lemma media_event_type (data : json) :
  is_media_event data = true ->
  exists kvs, data = JObj kvs /\ assoc "event" kvs = Some (JStr "media").
Proof.
  unfold is_media_event. destruct data; cbn; try discriminate.
  intros H. exists kvs. split; [reflexivity|].
  destruct (assoc "event" kvs) as [v|]; cbn in H; [|discriminate].
  now rewrite (eq_str_true _ _ H).
Qed.

(** X1.  A media event whose payload decodes to [audio], met while the
    callback [cb] is installed and returning, is handed to [cb] exactly
    once, as [audio]; two entries are printed and nothing else of the bridge
    changes. *)
Theorem media_event_is_delivered_once
    (data : json) (w : world) (cb : callback) (audio : list byte) :
  is_media_event data = true ->
  media_audio_data data = Ok audio ->
  input_callback w = Some cb ->
  callback_raises cb (calls w) audio = None ->
  handle_twilio_message data w
  = (Ok tt,
     {| stream_sid := stream_sid w; input_callback := input_callback w;
        reads := reads w; sends := sends w; calls := S (calls w) |},
     [ EvLog (Handling (JStr "media"));
       EvLog (ReceivedAudio (List.length audio));
       EvCall cb audio ]).
Proof.
  intros Hmedia Haudio Hcb Hreturns.
  destruct (media_event_type data Hmedia) as (kvs & -> & Hevent).
  unfold media_audio_data in Haudio.
  InboundFacts.run. rewrite Hevent. cbn -[getitem Base64.b64decode].
  rewrite Hcb. cbn -[getitem Base64.b64decode].
  destruct (getitem (JObj kvs) "media") as [media|]; [|discriminate].
  cbn -[getitem Base64.b64decode].
  destruct (getitem media "payload") as [payload|]; [|discriminate].
  cbn -[getitem Base64.b64decode].
  rewrite Haudio. cbn. rewrite Hreturns. now rewrite ?Hcb.
Qed.

(** X2.  When the callback raises on a media event, a [KeyError] ends the
    frame after that one call, and any other exception makes
    [handle_twilio_message] call the callback a second time with the same
    audio, and never a third time. *)
Theorem callback_error_redelivers_the_audio
    (data : json) (w : world) (cb : callback) (audio : list byte) (e : exn) :
  is_media_event data = true ->
  media_audio_data data = Ok audio ->
  input_callback w = Some cb ->
  callback_raises cb (calls w) audio = Some e ->
  outcome (handle_twilio_message data w) = Ok tt
  /\ calls_of (emitted (handle_twilio_message data w))
     = (if is_KeyError e then [(cb, audio)] else [(cb, audio); (cb, audio)])
  /\ calls (final (handle_twilio_message data w))
     = (if is_KeyError e then 1 else 2) + calls w.
Proof.
  intros Hmedia Haudio Hcb Hraises.
  destruct (media_event_type data Hmedia) as (kvs & -> & Hevent).
  destruct w as [sid installed r s c]. cbn in Hcb, Hraises. subst installed.
  unfold media_audio_data in Haudio.
  InboundFacts.run. rewrite Hevent. cbn -[getitem Base64.b64decode].
  destruct (getitem (JObj kvs) "media") as [media|]; [|discriminate].
  cbn -[getitem Base64.b64decode].
  destruct (getitem media "payload") as [payload|]; [|discriminate].
  cbn -[getitem Base64.b64decode].
  rewrite Haudio. cbn -[getitem Base64.b64decode]. rewrite Hraises.
  cbn -[getitem Base64.b64decode].
  destruct (is_KeyError e); cbn -[getitem Base64.b64decode].
  - repeat split; reflexivity.
  - rewrite ?Haudio. cbn -[getitem Base64.b64decode].
    destruct (callback_raises cb (S c) audio); cbn;
      repeat split; reflexivity.
Qed.

(** X3.  An event that is neither a start nor a media event, an event
    without a type included, is printed as unhandled and ignored: nothing
    of the bridge changes and nothing is called or written. *)
Theorem unknown_event_is_ignored (data event_type : json) (w : world) :
  get data "event" = Ok event_type ->
  eq_str event_type "start" = false ->
  eq_str event_type "media" = false ->
  handle_twilio_message data w
  = (Ok tt, w, [ EvLog (Handling event_type); EvLog (Unhandled event_type) ]).
Proof.
  intros Hget Hstart Hmedia.
  destruct data; cbn in Hget; try discriminate.
  InboundFacts.run.
  destruct (assoc "event" kvs); inversion Hget; subst;
    cbn -[getitem Base64.b64decode];
    rewrite ?Hstart; cbn -[getitem Base64.b64decode];
    rewrite ?Hmedia; cbn; now destruct w.
Qed.

(** X4.  A media event met while no callback is installed is dropped with
    one warning, whatever its payload is, decodable or not: nothing is
    decoded, called or changed. *)
Theorem media_event_without_callback_is_dropped (data : json) (w : world) :
  is_media_event data = true ->
  input_callback w = None ->
  handle_twilio_message data w
  = (Ok tt, w, [ EvLog (Handling (JStr "media")); EvLog NoInputCallback ]).
Proof.
  intros Hmedia Hcb.
  destruct (media_event_type data Hmedia) as (kvs & -> & Hevent).
  InboundFacts.run. rewrite Hevent. cbn -[getitem Base64.b64decode].
  rewrite Hcb. cbn. now destruct w.
Qed.

(** What one call leaves alone: the installed callback and the socket. *)
Lemma handle_twilio_message_keeps (data : json) (w : world) :
  input_callback (final (handle_twilio_message data w)) = input_callback w
  /\ reads (final (handle_twilio_message data w)) = reads w
  /\ sends (final (handle_twilio_message data w)) = sends w
  /\ sends_of (emitted (handle_twilio_message data w)) = []
  /\ states_of (emitted (handle_twilio_message data w)) = [].
Proof.
  destruct w as [sid installed r s c].
  destruct data; InboundFacts.run;
    repeat inbound_answer callback_raises;
    repeat split; try reflexivity; try discriminate; congruence.
Qed.

(** What the callback receives from one decoded frame when it returns on
    every call. *)
Lemma handle_twilio_message_calls (data : json) (w : world) (cb : callback) :
  input_callback w = Some cb ->
  (forall n audio, callback_raises cb n audio = None) ->
  calls_of (emitted (handle_twilio_message data w))
  = (if is_media_event data then
       match media_audio_data data with
       | Ok audio => [(cb, audio)]
       | Raise _ => []
       end
     else []).
Proof.
  intros Hcb Hquiet.
  destruct w as [sid installed r s c]. cbn in Hcb. subst installed.
  destruct data; unfold is_media_event, media_audio_data;
    InboundFacts.run;
    repeat (rewrite ?Hquiet; cbn -[getitem Base64.b64decode];
            inbound_answer callback_raises);
    rewrite ?Hquiet; cbn -[getitem Base64.b64decode];
    try reflexivity; try discriminate;
    repeat match goal with
           | H : eq_str _ _ = true |- _ => apply eq_str_true in H
           end;
    congruence.
Qed.

(** Without a callback nothing is called. *)
Lemma handle_twilio_message_no_callback (data : json) (w : world) :
  input_callback w = None ->
  calls_of (emitted (handle_twilio_message data w)) = []
  /\ calls (final (handle_twilio_message data w)) = calls w.
Proof.
  intros Hcb.
  destruct w as [sid installed r s c]. cbn in Hcb. subst installed.
  destruct data; InboundFacts.run;
    repeat inbound_answer callback_raises;
    split; reflexivity.
Qed.

End Inbound.

Lemma sends_of_app (evs1 evs2 : list event) :
  sends_of (evs1 ++ evs2) = sends_of evs1 ++ sends_of evs2.
Proof.
  induction evs1 as [|[| | |] rest IH]; cbn; now rewrite ?IH.
Qed.

Lemma calls_of_app (evs1 evs2 : list event) :
  calls_of (evs1 ++ evs2) = calls_of evs1 ++ calls_of evs2.
Proof.
  induction evs1 as [|[| | |] rest IH]; cbn; now rewrite ?IH.
Qed.

Lemma states_of_app (evs1 evs2 : list event) :
  states_of (evs1 ++ evs2) = states_of evs1 ++ states_of evs2.
Proof.
  induction evs1 as [|[| | |] rest IH]; cbn; now rewrite ?IH.
Qed.

Section ReadLoop.

Variable json_loads : string -> result json.
Variable callback_raises : callback -> nat -> list byte -> option exn.

#[local] Abbreviation handle_media_stream_message :=
  (handle_media_stream_message json_loads callback_raises).
#[local] Abbreviation handle_media_stream_loop :=
  (handle_media_stream_loop json_loads callback_raises).

(** The three ways the body of the loop goes. *)
Lemma message_cases (message : string) (w : world) :
  (message = "" /\ handle_media_stream_message message w = (Ok tt, w, []))
  \/ (String.eqb message "" = false
      /\ exists data,
          json_loads message = Ok data
          /\ handle_media_stream_message message w
             = handle_twilio_message callback_raises data w)
  \/ (String.eqb message "" = false
      /\ exists e,
          json_loads message = Raise e
          /\ handle_media_stream_message message w
             = (Ok tt, w,
                [ EvLog (LoopError e); EvLog (MessageContent message);
                  EvLog LoopAttemptingRetry; EvLog (LoopRetryFailed e);
                  EvLog (Traceback e) ])).
Proof.
  destruct (String.eqb message "") eqn:Hne.
  - left. apply String.eqb_eq in Hne. subst. split; reflexivity.
  - right. destruct (json_loads message) as [data|e] eqn:Hdata.
    + left. split; [reflexivity|]. exists data. split; [reflexivity|].
      now apply OrchestratorFacts.message_parsed.
    + right. split; [reflexivity|]. exists e. split; [reflexivity|].
      now apply OrchestratorFacts.message_unparsed.
Qed.

Lemma message_keeps (message : string) (w : world) :
  input_callback (final (handle_media_stream_message message w))
  = input_callback w
  /\ reads (final (handle_media_stream_message message w)) = reads w
  /\ sends (final (handle_media_stream_message message w)) = sends w
  /\ sends_of (emitted (handle_media_stream_message message w)) = []
  /\ states_of (emitted (handle_media_stream_message message w)) = [].
Proof.
  destruct (message_cases message w)
    as [[_ ->] | [(_ & data & _ & ->) | (_ & e & _ & ->)]].
  - repeat split.
  - apply handle_twilio_message_keeps.
  - repeat split.
Qed.

(** X5.  The read loop never touches the socket and never changes the
    installed callback: whatever frames arrive and whatever the callback
    does, nothing is written, the socket state is not read, and the
    callback installed afterwards is the one installed before. *)
Theorem read_loop_leaves_socket_and_callback_alone
    (messages : list string) (w : world) :
  input_callback (final (handle_media_stream_loop messages w))
  = input_callback w
  /\ reads (final (handle_media_stream_loop messages w)) = reads w
  /\ sends (final (handle_media_stream_loop messages w)) = sends w
  /\ sends_of (emitted (handle_media_stream_loop messages w)) = []
  /\ states_of (emitted (handle_media_stream_loop messages w)) = [].
Proof.
  revert w. induction messages as [|message rest IH]; intros w.
  - repeat split.
  - rewrite OrchestratorFacts.loop_cons.
    unfold final, emitted in *. cbn [fst snd].
    destruct (message_keeps message w) as (Hcb & Hr & Hs & Hsends & Hstates).
    destruct (IH (snd (fst (handle_media_stream_message message w))))
      as (Hcb' & Hr' & Hs' & Hsends' & Hstates').
    unfold final, emitted in *.
    rewrite sends_of_app, states_of_app, Hcb', Hr', Hs', Hsends', Hstates',
      Hcb, Hr, Hs, Hsends, Hstates.
    repeat split.
Qed.

(** X6.  Delivery in order: while a callback is installed that returns on
    every call, the callback receives exactly the audio of the frames that
    are well-formed media events, once each and in the order the frames
    arrived; start events, unknown events, empty and malformed frames
    deliver nothing and do not disturb the order. *)
Theorem media_frames_are_delivered_in_order
    (messages : list string) (w : world) (cb : callback) :
  input_callback w = Some cb ->
  (forall n audio, callback_raises cb n audio = None) ->
  calls_of (emitted (handle_media_stream_loop messages w))
  = deliveries json_loads cb messages.
Proof.
  intros Hcb Hquiet. revert w Hcb.
  induction messages as [|message rest IH]; intros w Hcb; [reflexivity|].
  rewrite OrchestratorFacts.loop_cons.
  unfold emitted at 1. cbn [snd]. rewrite calls_of_app.
  destruct (message_keeps message w) as (Hkeeps & _).
  rewrite IH by (now rewrite Hkeeps).
  unfold deliveries. cbn [flat_map]. f_equal.
  unfold media_audio_of.
  destruct (message_cases message w)
    as [[-> ->] | [(Hne & data & Hdata & ->) | (Hne & e & Hdata & ->)]].
  - reflexivity.
  - rewrite Hne, Hdata.
    rewrite (handle_twilio_message_calls callback_raises data w Hcb Hquiet).
    destruct (is_media_event data); [|reflexivity].
    now destruct (media_audio_data data).
  - now rewrite Hne, Hdata.
Qed.

(** X7.  Empty text frames are skipped without a trace: a run of the loop
    is the run over the frames that are not empty. *)
Theorem empty_frames_are_skipped (messages : list string) (w : world) :
  handle_media_stream_loop messages w
  = handle_media_stream_loop
      (filter (fun message => negb (String.eqb message "")) messages) w.
Proof.
  revert w. induction messages as [|message rest IH]; intros w; [reflexivity|].
  cbn [filter]. destruct (String.eqb message "") eqn:Hne; cbn [negb].
  - apply String.eqb_eq in Hne. subst message.
    rewrite <- IH.
    cbn [Main.handle_media_stream_loop]. unfold bind.
    cbn. now destruct (handle_media_stream_loop rest w) as [[r w1] evs].
  - rewrite !OrchestratorFacts.loop_cons. now rewrite !IH.
Qed.

End ReadLoop.

End BridgeFacts.

(** * More about the outbound path and the life of the bridge *)

Module OutboundMore.
Import Py Effects TwilioAudioInterface Trace Lifecycle.

(** Splits on the next answer of the socket a run depends on. *)
Ltac outbound_answer app snd :=
  match goal with
  | |- context [truthy ?x] => destruct (truthy x) eqn:?
  | |- context [app ?n] => destruct (app n) eqn:?
  | |- context [snd ?n ?t] => destruct (snd n t) eqn:?
  | |- context [is_WebSocketDisconnect ?e] =>
      destruct (is_WebSocketDisconnect e) eqn:?
  | |- context [is_RuntimeError ?e] => destruct (is_RuntimeError e) eqn:?
  end;
  cbn -[Json.dumps audio_delta clear_message] in *.

Section Outbound.

Variable application_state : nat -> WebSocketState.
Variable send_text_raises : nat -> string -> option exn.
Variable float_repr : SpecFloat.spec_float -> string.

#[local] Abbreviation emit :=
  (emit application_state send_text_raises float_repr).
#[local] Abbreviation output :=
  (output application_state send_text_raises float_repr).
#[local] Abbreviation interrupt :=
  (interrupt application_state send_text_raises float_repr).

(** X8.  [output] and [interrupt] return normally whatever the socket
    does, and they leave the bridge alone: the stream identifier and the
    installed callback are unchanged and the callback is not called. *)
Theorem outbound_path_returns_and_keeps_the_bridge (f : outbound) (w : world) :
  outcome (emit f w) = Ok tt
  /\ stream_sid (final (emit f w)) = stream_sid w
  /\ input_callback (final (emit f w)) = input_callback w
  /\ calls (final (emit f w)) = calls w
  /\ calls_of (emitted (emit f w)) = [].
Proof.
  destruct w as [sid installed r s c].
  destruct f as [audio|]; unfold Trace.emit; OutboundFacts.run;
    repeat outbound_answer application_state send_text_raises;
    repeat split; reflexivity.
Qed.

(** X9.  One call of [output] or [interrupt] writes to the socket at most
    twice, always the text of the one frame, and reads the socket state at
    most four times. *)
Theorem at_most_two_writes_of_one_frame (f : outbound) (w : world) :
  exists n,
    n <= 2
    /\ sends_of (emitted (emit f w))
       = repeat (frame_text float_repr (stream_sid w) f) n
    /\ sends (final (emit f w)) = n + sends w
    /\ reads (final (emit f w)) <= 4 + reads w.
Proof.
  destruct w as [sid installed r s c].
  destruct f as [audio|]; unfold Trace.emit, frame_text; OutboundFacts.run;
    repeat outbound_answer application_state send_text_raises;
    solve [ exists 0; repeat split; cbn; lia
          | exists 1; repeat split; cbn; lia
          | exists 2; repeat split; cbn; lia ].
Qed.

Variable callback_raises : callback -> nat -> list byte -> option exn.

#[local] Abbreviation handle_twilio_messages :=
  (handle_twilio_messages callback_raises).

(** After [stop], events that are no start events call nothing and leave
    the bridge without identifier and without callback. *)
Lemma stopped_bridge_stays_silent (events : list json) (w : world) :
  stream_sid w = JNull ->
  input_callback w = None ->
  forallb (fun data => negb (is_start_event data)) events = true ->
  calls_of (emitted (handle_twilio_messages events w)) = []
  /\ stream_sid (final (handle_twilio_messages events w)) = JNull
  /\ input_callback (final (handle_twilio_messages events w)) = None.
Proof.
  revert w. induction events as [|data rest IH]; intros w Hsid Hcb Hquiet.
  - repeat split; assumption.
  - cbn [forallb] in Hquiet. apply andb_true_iff in Hquiet.
    destruct Hquiet as [Hdata Hrest].
    rewrite InboundFacts.handle_twilio_messages_cons.
    unfold final at 1 2, emitted at 1. cbn [fst snd].
    rewrite BridgeFacts.calls_of_app.
    destruct (BridgeFacts.handle_twilio_message_no_callback
                callback_raises data w Hcb) as [Hnone _].
    destruct (BridgeFacts.handle_twilio_message_keeps callback_raises data w)
      as (Hkeeps & _).
    pose proof (InboundFacts.handle_twilio_message_stream_sid
                  callback_raises data w) as Hset.
    assert (Hcarried : carried_stream_sid data = None).
    { unfold carried_stream_sid, is_start_event in *.
      destruct (get data "event") as [event_type|]; [|reflexivity].
      apply negb_true_iff in Hdata. now rewrite Hdata. }
    rewrite Hcarried, Hsid in Hset. rewrite Hcb in Hkeeps.
    destruct (IH _ Hset Hkeeps Hrest) as (Hcalls & Hsid' & Hcb').
    rewrite Hnone, Hcalls. repeat split; assumption.
Qed.

(** X10.  [stop] silences the bridge: from then on, whatever events other
    than start events arrive, the callback that was installed is not called
    any more, and [output] and [interrupt] write nothing and print their
    warning; a second [stop] changes nothing. *)
Theorem stop_silences_the_bridge
    (events : list json) (audio : list byte) (w : world) :
  forallb (fun data => negb (is_start_event data)) events = true ->
  stop (final (stop w)) = (Ok tt, final (stop w), [])
  /\ calls_of (emitted (handle_twilio_messages events (final (stop w)))) = []
  /\ emitted
       (output audio (final (handle_twilio_messages events (final (stop w)))))
     = [EvLog AudioNoStreamSid]
  /\ emitted
       (interrupt (final (handle_twilio_messages events (final (stop w)))))
     = [EvLog ClearNoStreamSid].
Proof.
  intros Hquiet.
  split; [reflexivity|].
  destruct (stopped_bridge_stays_silent events (final (stop w))
              eq_refl eq_refl Hquiet) as (Hcalls & Hsid & _).
  split; [exact Hcalls|].
  remember (final (handle_twilio_messages events (final (stop w)))) as w1.
  clear Heqw1. split; OutboundFacts.run; now rewrite Hsid.
Qed.

End Outbound.

(** ** The text of the audio frame *)

Lemma append_assoc (s1 s2 s3 : string) :
  ((s1 ++ s2) ++ s3 = s1 ++ (s2 ++ s3))%string.
Proof.
  induction s1 as [|c s1 IH]; cbn; [reflexivity | now rewrite IH].
Qed.

(** Plain characters are written as they are. *)
Lemma concat_escape_plain (l : list ascii) :
  forallb plain l = true ->
  String.concat "" (map Json.escape_char l) = string_of_list_ascii l.
Proof.
  induction l as [|c rest IH]; intros Hplain; [reflexivity|].
  cbn [forallb] in Hplain. apply andb_true_iff in Hplain.
  destruct Hplain as [Hc Hrest]. unfold plain in Hc.
  apply String.eqb_eq in Hc.
  cbn [map string_of_list_ascii]. rewrite <- (IH Hrest).
  destruct rest as [|c' rest'].
  - cbn. now rewrite Hc.
  - cbn [map String.concat]. rewrite Hc. reflexivity.
Qed.

Lemma encode_plain (s : string) :
  forallb plain (list_ascii_of_string s) = true ->
  Json.encode_basestring_ascii s = (Json.dquote ++ s ++ Json.dquote)%string.
Proof.
  intros Hplain. unfold Json.encode_basestring_ascii.
  rewrite (concat_escape_plain _ Hplain).
  now rewrite string_of_list_ascii_of_string.
Qed.

(** Whatever holds of the pad and of the characters of the alphabet holds
    of every character the encoder writes. *)
Lemma b2a_base64_forallb (P : ascii -> bool) :
  (forall n, (n < 64)%N -> P (Base64.table_b2a_base64 n) = true) ->
  P Base64.BASE64_PAD = true ->
  forall data, forallb P (Base64.b2a_base64 data) = true.
Proof.
  intros Htable Hpad data.
  remember (List.length data) as n eqn:Hn.
  assert (Hlen : List.length data <= n) by lia. clear Hn.
  revert data Hlen. induction n as [|n IH]; intros data Hlen.
  - destruct data; [reflexivity | simpl in Hlen; lia].
  - destruct data as [|a [|b [|c rest]]].
    + reflexivity.
    + destruct (Base64Facts.sextet_bounds a a) as (H0 & _ & _ & _ & H1 & _).
      cbn [Base64.b2a_base64 forallb].
      fold (Base64Spec.sextet0 a).
      now rewrite (Htable _ H0), (Htable _ H1), Hpad.
    + destruct (Base64Facts.sextet_bounds a b) as (H0 & H1 & _).
      destruct (Base64Facts.sextet_bounds b b) as (_ & _ & _ & _ & _ & H2).
      cbn [Base64.b2a_base64 forallb].
      fold (Base64Spec.sextet0 a) (Base64Spec.sextet1 a b).
      now rewrite (Htable _ H0), (Htable _ H1), (Htable _ H2), Hpad.
    + destruct (Base64Facts.sextet_bounds a b) as (H0 & H1 & _).
      destruct (Base64Facts.sextet_bounds b c) as (_ & _ & H2 & _).
      destruct (Base64Facts.sextet_bounds c c) as (_ & _ & _ & H3 & _).
      cbn [Base64.b2a_base64 forallb].
      fold (Base64Spec.sextet0 a) (Base64Spec.sextet1 a b)
        (Base64Spec.sextet2 b c) (Base64Spec.sextet3 c).
      rewrite (Htable _ H0), (Htable _ H1), (Htable _ H2), (Htable _ H3).
      apply IH. simpl in Hlen. lia.
Qed.

Lemma table_plain (n : N) :
  (n < 64)%N -> plain (Base64.table_b2a_base64 n) = true.
Proof.
  intros Hn.
  assert (Hall : forallb (fun n => plain (Base64.table_b2a_base64 n))
                   (map N.of_nat (seq 0 64)) = true)
    by (vm_compute; reflexivity).
  rewrite forallb_forall in Hall. apply Hall.
  apply in_map_iff. exists (N.to_nat n). split.
  - apply N2Nat.id.
  - apply in_seq. lia.
Qed.

(** Base64 text needs no escape. *)
Lemma b64encode_plain (audio : list byte) :
  forallb plain (list_ascii_of_string (Base64.b64encode audio)) = true.
Proof.
  unfold Base64.b64encode. rewrite list_ascii_of_string_of_list_ascii.
  apply b2a_base64_forallb; [apply table_plain | reflexivity].
Qed.

Section Frame.

Variable application_state : nat -> WebSocketState.
Variable send_text_raises : nat -> string -> option exn.
Variable float_repr : SpecFloat.spec_float -> string.

Lemma dumps_audio_delta (sid : string) (audio : list byte) :
  forallb plain (list_ascii_of_string sid) = true ->
  Json.dumps float_repr (audio_delta (JStr sid) audio)
  = media_frame_text sid audio.
Proof.
  intros Hsid. unfold audio_delta, media_frame_text.
  cbn -[Json.encode_basestring_ascii Base64.b64encode].
  rewrite (encode_plain sid Hsid).
  rewrite (encode_plain _ (b64encode_plain audio)).
  cbn -[Base64.b64encode].
  repeat (rewrite append_assoc; cbn -[Base64.b64encode]).
  reflexivity.
Qed.

(** X11.  A successful audio write: with the stream identifier [sid], a
    string that is not empty and needs no escape, the socket seen
    [CONNECTED] and the write accepted, [output] reads the state once,
    writes one frame and prints its length.  The frame is the JSON object
    with the event media, the stream identifier and the payload, and the
    payload is the base64 text of the audio as it is. *)
Theorem audio_is_written_as_one_media_frame
    (sid : string) (audio : list byte) (w : world) :
  stream_sid w = JStr sid ->
  sid <> "" ->
  forallb plain (list_ascii_of_string sid) = true ->
  application_state (reads w) = CONNECTED ->
  send_text_raises (sends w) (media_frame_text sid audio) = None ->
  output application_state send_text_raises float_repr audio w
  = (Ok tt,
     {| stream_sid := stream_sid w; input_callback := input_callback w;
        reads := S (reads w); sends := S (sends w); calls := calls w |},
     [ EvState CONNECTED;
       EvSend (media_frame_text sid audio);
       EvLog (SentAudio (List.length audio)) ]).
Proof.
  intros Hsid Hne Hplain Hopen Haccepted.
  OutboundFacts.run. rewrite Hsid.
  assert (Htruthy : truthy (JStr sid) = true).
  { cbn. apply negb_true_iff. now apply String.eqb_neq. }
  rewrite Htruthy. cbn -[Json.dumps audio_delta].
  rewrite Hopen. cbn -[Json.dumps audio_delta].
  rewrite (dumps_audio_delta sid audio Hplain), Haccepted.
  now rewrite ?Hsid.
Qed.

End Frame.

End OutboundMore.

(** * More about the tool endpoint *)

Module ToolMore.
Import Py Effects Main Trace Lifecycle.

Section Endpoint.

Variable json_loads : string -> result json.
Variable handle_function_call : string -> json -> result (json * json).

#[local] Abbreviation handle_tool_call :=
  (handle_tool_call json_loads handle_function_call).

(** X12.  A request whose body is JSON but no object is refused before the
    handler is consulted: the four entries for the request are printed, the
    loop over the parameters raises, and the response is the failure object
    with the message of that exception, whatever the handler would do. *)
Theorem non_object_body_is_refused
    (tool_name : string) (request : Request) (w : world)
    (request_body : json) (e : exn) :
  json_loads (body request) = Ok request_body ->
  items request_body = Raise e ->
  handle_tool_call tool_name request w
  = (Ok (error_response
           (JStr ("Unexpected error in tool endpoint: " ++ exn_str e)%string)),
     w,
     [ EvLog (ToolReceived tool_name);
       EvLog (ToolHeaders (headers request));
       EvLog (ToolBody request_body);
       EvLog ToolParameters;
       EvLog (ToolException tool_name
                ("Unexpected error in tool endpoint: " ++ exn_str e)%string);
       EvLog (Traceback e) ]).
Proof.
  intros Hbody Hitems.
  assert (Hclass : is_JSONDecodeError e = false).
  { destruct request_body; cbn in Hitems; inversion Hitems; reflexivity. }
  unfold Main.handle_tool_call, request_json, try_except, bind, lift, print,
    ret.
  rewrite Hbody. cbn. rewrite Hitems. cbn. rewrite Hclass. reflexivity.
Qed.

(** X13.  How a failure is reported depends on the class of the
    exception only: a [JSONDecodeError] is answered as invalid JSON in the
    request body, without a traceback, also when it is the handler that
    raised it; every other exception is answered as an unexpected error,
    with a traceback. *)
Theorem failures_are_reported_by_class
    (tool_name : string) (request : Request) (w : world)
    (request_body : json) (kvs : list (string * json)) (e : exn) :
  (json_loads (body request) = Raise e ->
   handle_tool_call tool_name request w
   = (Ok (error_response (JStr (tool_error_message e))), w,
      if is_JSONDecodeError e
      then [ EvLog (ToolJsonError tool_name (tool_error_message e)) ]
      else [ EvLog (ToolException tool_name (tool_error_message e));
             EvLog (Traceback e) ]))
  /\ (json_loads (body request) = Ok request_body ->
      items request_body = Ok kvs ->
      handle_function_call tool_name request_body = Raise e ->
      handle_tool_call tool_name request w
      = (Ok (error_response (JStr (tool_error_message e))), w,
         [ EvLog (ToolReceived tool_name);
           EvLog (ToolHeaders (headers request));
           EvLog (ToolBody request_body);
           EvLog ToolParameters ]
         ++ map (fun kv => EvLog (ToolParameter (fst kv) (snd kv))) kvs
         ++ (if is_JSONDecodeError e
             then [ EvLog (ToolJsonError tool_name (tool_error_message e)) ]
             else [ EvLog (ToolException tool_name (tool_error_message e));
                    EvLog (Traceback e) ]))).
Proof.
  unfold Main.handle_tool_call, request_json, try_except, bind, lift, print,
    ret, tool_error_message.
  split.
  - intros Hbody. rewrite Hbody. cbn.
    destruct (is_JSONDecodeError e); reflexivity.
  - intros Hbody Hitems Hraised. rewrite Hbody. cbn. rewrite Hitems. cbn.
    rewrite ToolFacts.print_each_returns. rewrite Hraised. cbn.
    destruct (is_JSONDecodeError e); cbn; rewrite ?app_nil_r; reflexivity.
Qed.

End Endpoint.

End ToolMore.

(** * The whole of [handle_media_stream] *)

Module StreamFacts.
Import Py Effects Main Trace MediaStream Lifecycle.


Lemma bridge_events_app (evs1 evs2 : list stream_event) :
  bridge_events (evs1 ++ evs2) = bridge_events evs1 ++ bridge_events evs2.
Proof.
  induction evs1 as [|[| | | |] rest IH]; cbn; now rewrite ?IH.
Qed.

Lemma stream_logs_app (evs1 evs2 : list stream_event) :
  stream_logs (evs1 ++ evs2) = stream_logs evs1 ++ stream_logs evs2.
Proof.
  induction evs1 as [|[| | | |] rest IH]; cbn; now rewrite ?IH.
Qed.

Lemma of_bridge (evs : list event) :
  session_calls (map Bridge evs) = []
  /\ bridge_events (map Bridge evs) = evs
  /\ stream_logs (map Bridge evs) = [].
Proof.
  induction evs as [|ev rest (IH1 & IH2 & IH3)]; cbn; [tauto|].
  now rewrite IH1, IH2, IH3.
Qed.

Lemma of_handler (e : exn) :
  session_calls (handler_events e) = []
  /\ bridge_events (handler_events e) = []
  /\ filter is_ended (stream_logs (handler_events e)) = []
  /\ filter is_ending_error (stream_logs (handler_events e)) = [].
Proof.
  unfold handler_events. destruct (is_WebSocketDisconnect e); cbn; tauto.
Qed.

Section Stream.

Variable accept_raises : option exn.
Variable client_raises : option exn.
Variable session_raises : session_call -> option exn.
Variable session_effect : session_call -> world -> world.
Variable json_loads : string -> result json.
Variable callback_raises : callback -> nat -> list byte -> option exn.
Variable messages : list string.
Variable iteration_raises : option exn.

#[local] Abbreviation handle_media_stream :=
  (handle_media_stream accept_raises client_raises session_raises
     session_effect json_loads callback_raises messages iteration_raises).

(** The bridge when the read loop starts. *)
#[local] Abbreviation at_start :=
  (session_effect start_session (session_effect Conversation init)).

(** The run once the socket is accepted and the client is made. *)
Lemma run_after_setup :
  accept_raises = None ->
  client_raises = None ->
  houtcome (handle_media_stream entry) = Ok tt
  /\ hemitted (handle_media_stream entry)
     = [Accept; Print WebSocketOpened; Client; Session Conversation]
       ++ match session_raises Conversation with
          | Some e =>
              handler_events e
              ++ [ Print ErrorEndingSession;
                   Print (StreamTraceback UnboundLocalError) ]
          | None =>
              Session start_session
              :: match session_raises start_session with
                 | Some e => handler_events e
                 | None =>
                     Print ConversationStarted
                     :: map Bridge
                          (emitted
                             (handle_media_stream_loop json_loads
                                callback_raises messages at_start))
                     ++ match iteration_raises with
                        | Some e => handler_events e
                        | None => []
                        end
                 end
              ++ teardown_events session_raises
          end.
Proof.
  intros Haccept Hclient.
  pose proof (OrchestratorFacts.loop_returns json_loads callback_raises
                messages at_start) as Hloop.
  unfold MediaStream.handle_media_stream, hfinally, htry, hbind, step, hprint,
    new_audio_interface, call_session, assign_conversation,
    read_conversation, end_of_frames, in_bridge, houtcome, hemitted,
    handler_events, teardown_events, entry.
  rewrite Haccept, Hclient.
  cbn -[Main.handle_media_stream_loop].
  destruct (session_raises Conversation) as [e|];
    cbn -[Main.handle_media_stream_loop].
  { destruct (is_WebSocketDisconnect e); cbn; split; reflexivity. }
  destruct (session_raises start_session) as [e|];
    cbn -[Main.handle_media_stream_loop].
  { destruct (is_WebSocketDisconnect e); cbn;
      destruct (session_raises end_session); cbn;
      try destruct (session_raises wait_for_session_end); cbn;
      split; reflexivity. }
  destruct (handle_media_stream_loop json_loads callback_raises messages
              at_start) as [[r w1] evs].
  unfold outcome in Hloop. cbn in Hloop. subst r.
  cbn -[Main.handle_media_stream_loop].
  destruct iteration_raises as [e|]; cbn;
    try destruct (is_WebSocketDisconnect e); cbn;
    destruct (session_raises end_session); cbn;
    try destruct (session_raises wait_for_session_end); cbn;
    rewrite <- ?app_assoc; cbn; rewrite ?app_nil_r; split; reflexivity.
Qed.

(** X14.  [handle_media_stream] raises only when accepting the socket or
    making the client raises, and then nothing else has been done: no call
    on the agent session, no frame read, no teardown.  Once both returned,
    it returns normally whatever the session, the socket, the frames and
    the callback do. *)
Theorem handle_media_stream_raises_only_during_setup :
  match accept_raises, client_raises with
  | Some e, _ => handle_media_stream entry = (Raise e, entry, [Accept])
  | None, Some e =>
      handle_media_stream entry
      = (Raise e, entry, [Accept; Print WebSocketOpened; Client])
  | None, None => houtcome (handle_media_stream entry) = Ok tt
  end.
Proof.
  pose proof run_after_setup as Hrun.
  destruct accept_raises as [e|]; [reflexivity|].
  destruct client_raises as [e|]; [reflexivity|].
  now apply Hrun.
Qed.


(** X16.  When [Conversation(...)] raises, the name [conversation] is
    never assigned: the failure is printed, the [finally] clause then fails
    on the unassigned name before it can call [end_session], and that
    second failure is printed too and swallowed. *)
Theorem failed_construction_is_swallowed (e : exn) :
  accept_raises = None ->
  client_raises = None ->
  session_raises Conversation = Some e ->
  houtcome (handle_media_stream entry) = Ok tt
  /\ hemitted (handle_media_stream entry)
     = [Accept; Print WebSocketOpened; Client; Session Conversation]
       ++ handler_events e
       ++ [ Print ErrorEndingSession; Print (StreamTraceback UnboundLocalError) ].
Proof.
  intros Haccept Hclient Hraised.
  destruct (run_after_setup Haccept Hclient) as [Hok ->].
  now rewrite Hraised.
Qed.

(** X17.  Frames are read only after [start_session] has returned: when
    [Conversation(...)] or [start_session] raises, the read loop does not
    run at all; otherwise what the bridge does is exactly the run of the
    read loop over the frames, from the bridge as the session left it. *)
Theorem frames_are_read_after_the_session_started :
  accept_raises = None ->
  client_raises = None ->
  bridge_events (hemitted (handle_media_stream entry))
  = match session_raises Conversation, session_raises start_session with
    | None, None =>
        emitted
          (handle_media_stream_loop json_loads callback_raises messages
             at_start)
    | _, _ => []
    end.
Proof.
  intros Haccept Hclient.
  destruct (run_after_setup Haccept Hclient) as [_ ->].
  assert (Hteardown : bridge_events (teardown_events session_raises) = []).
  { unfold teardown_events. cbn.
    destruct (session_raises end_session); [reflexivity|]. cbn.
    now destruct (session_raises wait_for_session_end). }
  rewrite bridge_events_app. cbn [bridge_events app].
  destruct (session_raises Conversation) as [e|].
  - rewrite bridge_events_app.
    now destruct (of_handler e) as (_ & -> & _).
  - cbn [bridge_events]. rewrite bridge_events_app, Hteardown, app_nil_r.
    destruct (session_raises start_session) as [e|].
    + now destruct (of_handler e) as (_ & -> & _).
    + cbn [bridge_events]. rewrite bridge_events_app.
      destruct (of_bridge
                  (emitted
                     (handle_media_stream_loop json_loads callback_raises
                        messages at_start))) as (_ & -> & _).
      destruct iteration_raises as [e|]; [|now rewrite app_nil_r].
      destruct (of_handler e) as (_ & -> & _). now rewrite app_nil_r.
Qed.

(** X18.  Every run that got past the setup prints exactly one verdict on
    the teardown: that the conversation ended, when [Conversation(...)],
    [end_session] and [wait_for_session_end] all returned, and that ending
    the session failed otherwise.  Whether [start_session] or the read loop
    failed makes no difference to it. *)
Theorem teardown_prints_one_verdict :
  accept_raises = None ->
  client_raises = None ->
  (List.length (filter is_ended (stream_logs (hemitted (handle_media_stream entry))))
   = match session_raises Conversation, session_raises end_session,
           session_raises wait_for_session_end with
     | None, None, None => 1
     | _, _, _ => 0
     end)
  /\ (List.length
        (filter is_ending_error
           (stream_logs (hemitted (handle_media_stream entry))))
      = match session_raises Conversation, session_raises end_session,
              session_raises wait_for_session_end with
        | None, None, None => 0
        | _, _, _ => 1
        end).
Proof.
  intros Haccept Hclient.
  destruct (run_after_setup Haccept Hclient) as [_ ->].
  rewrite stream_logs_app. cbn [stream_logs app].
  cbn [filter is_ended is_ending_error].
  destruct (session_raises Conversation) as [e|].
  - rewrite stream_logs_app, !filter_app.
    destruct (of_handler e) as (_ & _ & -> & ->). cbn. split; reflexivity.
  - cbn [stream_logs]. rewrite stream_logs_app, !filter_app.
    assert (Hbody :
      forall p, (p = is_ended \/ p = is_ending_error) ->
      filter p
        (stream_logs
           match session_raises start_session with
           | Some e => handler_events e
           | None =>
               Print ConversationStarted
               :: map Bridge
                    (emitted
                       (handle_media_stream_loop json_loads callback_raises
                          messages at_start))
               ++ match iteration_raises with
                  | Some e => handler_events e
                  | None => []
                  end
           end) = []).
    { intros p Hp.
      assert (Hhandler : forall e, filter p (stream_logs (handler_events e)) = []).
      { intros e. destruct (of_handler e) as (_ & _ & H1 & H2).
        destruct Hp; subst p; assumption. }
      destruct (session_raises start_session) as [e|]; [apply Hhandler|].
      cbn [stream_logs]. rewrite stream_logs_app.
      destruct (of_bridge
                  (emitted
                     (handle_media_stream_loop json_loads callback_raises
                        messages at_start))) as (_ & _ & ->).
      cbn [app].
      assert (Hstarted : p ConversationStarted = false)
        by (destruct Hp; subst p; reflexivity).
      cbn [filter]. rewrite Hstarted.
      destruct iteration_raises as [e|]; [apply Hhandler | reflexivity]. }
    rewrite (Hbody is_ended (or_introl eq_refl)),
      (Hbody is_ending_error (or_intror eq_refl)).
    unfold teardown_events. cbn.
    destruct (session_raises end_session); cbn; [split; reflexivity|].
    destruct (session_raises wait_for_session_end); cbn; split; reflexivity.
Qed.

End Stream.

End StreamFacts.

(** * The further theorems at concrete inputs *)

Module MoreConcrete.
Import Py Effects TwilioAudioInterface Main Trace MediaStream Lifecycle.
Import Samples MoreSamples.

(** One media frame, delivered. *)
Lemma media_event_is_delivered_once_witness :
  handle_twilio_message callback_returns (media_event "AAA=") listening
  = (Ok tt,
     {| stream_sid := JNull; input_callback := Some 7;
        reads := 0; sends := 0; calls := 1 |},
     [ EvLog (Handling (JStr "media")); EvLog (ReceivedAudio 2);
       EvCall 7 ["000"%byte; "000"%byte] ]).
Proof.
  apply (@BridgeFacts.media_event_is_delivered_once callback_returns
           (media_event "AAA=") listening 7 ["000"%byte; "000"%byte]);
    reflexivity.
Defined.

(** The same frame with a callback whose first call raises. *)
Lemma callback_error_redelivers_the_audio_witness :
  outcome
    (handle_twilio_message (callback_raises_once queue_full)
       (media_event "AAA=") listening) = Ok tt
  /\ calls_of
       (emitted
          (handle_twilio_message (callback_raises_once queue_full)
             (media_event "AAA=") listening))
     = [ (7, ["000"%byte; "000"%byte]); (7, ["000"%byte; "000"%byte]) ]
  /\ calls
       (final
          (handle_twilio_message (callback_raises_once queue_full)
             (media_event "AAA=") listening))
     = 2.
Proof.
  apply (@BridgeFacts.callback_error_redelivers_the_audio
           (callback_raises_once queue_full)
           (media_event "AAA=") listening 7 ["000"%byte; "000"%byte]
           queue_full);
    reflexivity.
Defined.

Lemma unknown_event_is_ignored_witness :
  handle_twilio_message callback_returns mark_event listening
  = (Ok tt, listening,
     [ EvLog (Handling (JStr "mark")); EvLog (Unhandled (JStr "mark")) ]).
Proof.
  apply (@BridgeFacts.unknown_event_is_ignored callback_returns
           mark_event (JStr "mark") listening);
    reflexivity.
Defined.

Lemma media_event_without_callback_is_dropped_witness :
  handle_twilio_message callback_returns (media_event "AAA=") init
  = (Ok tt, init,
     [ EvLog (Handling (JStr "media")); EvLog NoInputCallback ]).
Proof.
  apply (@BridgeFacts.media_event_without_callback_is_dropped
           callback_returns (media_event "AAA=") init);
    reflexivity.
Defined.

(** A short call: a start event, audio, a mark, audio. *)
Lemma media_frames_are_delivered_in_order_witness :
  calls_of
    (emitted
       (handle_media_stream_loop (loads_among short_call) callback_returns
          (map text_of short_call) listening))
  = [ (7, ["000"%byte; "000"%byte]); (7, ["004"%byte; "016"%byte]) ].
Proof.
  apply (@BridgeFacts.media_frames_are_delivered_in_order
           (loads_among short_call) callback_returns
           (map text_of short_call) listening 7);
    reflexivity.
Defined.

(** The bridge of S1 with a callback, stopped, then a media frame. *)
Lemma stop_silences_the_bridge_witness :
  calls_of
    (emitted
       (handle_twilio_messages callback_returns [media_event "AAA="]
          (final (stop (final (start 7 streaming_S1))))))
  = []
  /\ emitted
       (output always_connected never_raises no_floats ["000"%byte]
          (final
             (handle_twilio_messages callback_returns [media_event "AAA="]
                (final (stop (final (start 7 streaming_S1)))))))
     = [EvLog AudioNoStreamSid].
Proof.
  destruct (@OutboundMore.stop_silences_the_bridge always_connected
              never_raises no_floats callback_returns
              [media_event "AAA="] ["000"%byte]
              (final (start 7 streaming_S1)) eq_refl)
    as (_ & Hcalls & Houtput & _).
  split; [exact Hcalls | exact Houtput].
Defined.

(** One byte of audio on the stream S1. *)
Lemma audio_is_written_as_one_media_frame_witness :
  output always_connected never_raises no_floats ["000"%byte] streaming_S1
  = (Ok tt,
     {| stream_sid := JStr "S1"; input_callback := None;
        reads := 1; sends := 1; calls := 0 |},
     [ EvState CONNECTED;
       EvSend (media_frame_text "S1" ["000"%byte]);
       EvLog (SentAudio 1) ]).
Proof.
  apply (@OutboundMore.audio_is_written_as_one_media_frame always_connected
           never_raises no_floats "S1" ["000"%byte] streaming_S1);
    try reflexivity.
  discriminate.
Defined.

(** A tool request with a list as its body. *)
Lemma non_object_body_is_refused_witness :
  outcome
    (handle_tool_call (loads_only list_arguments) answering_handler
       "get_weather" list_request init)
  = Ok (error_response
          (JStr "Unexpected error in tool endpoint: 'list' object has no attribute 'items'")).
Proof.
  rewrite (@ToolMore.non_object_body_is_refused
             (loads_only list_arguments) answering_handler
             "get_weather" list_request init list_arguments
             (Exn AttributeError "'list' object has no attribute 'items'")
             eq_refl eq_refl).
  reflexivity.
Defined.

(** A body that is cut off, and a handler that raises the parser's
    exception. *)
Lemma failures_are_reported_by_class_witness :
  outcome
    (handle_tool_call (loads_only weather_arguments) answering_handler
       "get_weather" cut_off_request init)
  = Ok (error_response
          (JStr "Invalid JSON in request body: Expecting value: line 1 column 1 (char 0)"))
  /\ outcome
       (handle_tool_call (loads_only weather_arguments) decoding_handler
          "get_weather" weather_request init)
     = Ok (error_response
             (JStr "Invalid JSON in request body: Expecting value: line 1 column 1 (char 0)")).
Proof.
  split.
  - destruct (@ToolMore.failures_are_reported_by_class
                (loads_only weather_arguments) answering_handler
                "get_weather" cut_off_request init JNull []
                (Exn JSONDecodeError "Expecting value: line 1 column 1 (char 0)"))
      as [Hbody _].
    rewrite (Hbody eq_refl). reflexivity.
  - destruct (@ToolMore.failures_are_reported_by_class
                (loads_only weather_arguments) decoding_handler
                "get_weather" weather_request init weather_arguments
                [("city", JStr "Paris")]
                (Exn JSONDecodeError "Expecting value: line 1 column 1 (char 0)"))
      as [_ Hhandler].
    rewrite (Hhandler eq_refl eq_refl eq_refl). reflexivity.
Defined.


(** A call whose agent session cannot be made. *)
Lemma failed_construction_is_swallowed_witness :
  houtcome
    (handle_media_stream None None construction_fails session_installs
       (loads_among short_call) callback_returns (map text_of short_call)
       None entry) = Ok tt
  /\ hemitted
       (handle_media_stream None None construction_fails session_installs
          (loads_among short_call) callback_returns (map text_of short_call)
          None entry)
     = [ Accept; Print WebSocketOpened; Client; Session Conversation;
         Print HandlerError; Print (StreamTraceback no_agent);
         Print ErrorEndingSession; Print (StreamTraceback UnboundLocalError) ].
Proof.
  apply (@StreamFacts.failed_construction_is_swallowed None None
           construction_fails session_installs (loads_among short_call)
           callback_returns (map text_of short_call) None no_agent);
    reflexivity.
Defined.

Lemma frames_are_read_after_the_session_started_witness :
  bridge_events
    (hemitted
       (handle_media_stream None None construction_fails session_installs
          (loads_among short_call) callback_returns (map text_of short_call)
          None entry))
  = [].
Proof.
  apply (@StreamFacts.frames_are_read_after_the_session_started None None
           construction_fails session_installs (loads_among short_call)
           callback_returns (map text_of short_call) None);
    reflexivity.
Defined.

Lemma teardown_prints_one_verdict_witness :
  List.length
    (filter is_ended
       (stream_logs
          (hemitted
             (handle_media_stream None None session_returns session_installs
                (loads_among short_call) callback_returns
                (map text_of short_call) None entry)))) = 1
  /\ List.length
       (filter is_ending_error
          (stream_logs
             (hemitted
                (handle_media_stream None None session_returns
                   session_installs (loads_among short_call) callback_returns
                   (map text_of short_call) None entry)))) = 0.
Proof.
  apply (@StreamFacts.teardown_prints_one_verdict None None session_returns
           session_installs (loads_among short_call) callback_returns
           (map text_of short_call) None);
    reflexivity.
Defined.

End MoreConcrete.
